(** * todo-poc: the view-model of [src/App.js]

    A shallow embedding of the [TodoApp] component: its data (groups holding
    todos), its five pieces of React state, the asynchronous handlers
    ([addGroup], [deleteGroup], [addTodo], [toggleTodo], [deleteTodo]), the
    mount effect that loads the groups, and the pure projections used while
    rendering ([getFilteredTodos], [remaining], the group footer).

    Modelling conventions.
    - A JS string is a [string]; [trim] strips the white space of the 8-bit
      range (TAB, LF, VT, FF, CR, SPACE, NBSP).
    - A todo id is the number [Date.now()] returns, a [Z]; a group id is the
      string the store assigns (the fixtures of [App.test.js] use ['1']).
    - [todoInputs] is a JS object used as a map from group id to text: a
      [gmap string string].  Group ids are taken not to name a property of
      [Object.prototype].
    - A handler is a program ([Prog]) over two kinds of steps: a call of a
      state setter or of [alert] ([Act]), and a request to the store
      ([Fetch]) whose continuation receives the outcome, resolved with the
      parsed JSON or rejected.  A handler closes over the state of the render
      it was created in; [run] executes a program against a store and logs
      every step in order. *)

From Stdlib Require Import ZArith Ascii String List.
From stdpp Require Import base option list strings gmap pretty.

Local Open Scope string_scope.
Local Open Scope list_scope.
Set Warnings "-register-all".

(** ** Data model *)

Module Todo.
Record t : Type := mk { id : Z; text : string; completed : bool }.
End Todo.

Module Group.
Record t : Type := mk {
  id : string;
  title : string;
  createdAt : option string;
  todos : list Todo.t
}.
End Group.

(** [const FILTERS = ["All", "Active", "Completed"]] *)
Inductive FilterMode : Type := All | Active | Completed.

Definition filterName (m : FilterMode) : string :=
  match m with
  | All => "All"
  | Active => "Active"
  | Completed => "Completed"
  end.

Definition FILTERS : list string := ["All"; "Active"; "Completed"].

Module State.
Record t : Type := mk {
  groups : list Group.t;
  groupInput : string;
  filter : string;
  todoInputs : gmap string string;
  loading : bool
}.
End State.

(** The five [useState] initial values. *)
Definition initialState : State.t :=
  State.mk [] "" "All" ∅ true.

(** ** Filter projector and footer *)

(** [getFilteredTodos], with the [filter] it closes over made a parameter. *)
Definition getFilteredTodos (filter : string) (todos : list Todo.t) : list Todo.t :=
  if String.eqb filter "Active" then
    List.filter (fun t => negb (Todo.completed t)) todos
  else if String.eqb filter "Completed" then
    List.filter (fun t => Todo.completed t) todos
  else todos.

(** [const remaining = group.todos.filter(t => !t.completed).length] *)
Definition remaining (group : Group.t) : nat :=
  length (List.filter (fun t => negb (Todo.completed t)) (Group.todos group)).

(** What the body of [groups.map(group => ...)] derives for one group card:
    the todo items listed and the text of the footer, which is rendered only
    when [group.todos.length > 0]. *)
Record GroupCard : Type := mkCard {
  filteredTodos : list Todo.t;
  groupFooter : option string
}.

Definition renderGroup (filter : string) (group : Group.t) : GroupCard :=
  {| filteredTodos := getFilteredTodos filter (Group.todos group);
     groupFooter :=
       if (0 <? length (Group.todos group))%nat
       then Some (pretty (remaining group) +:+ " item(s) left")
       else None |}.

(** The spec's [remainingCount]: the count of todos where [completed] is
    false, by a direct count over the sequence. *)
Fixpoint remainingCount (todos : list Todo.t) : nat :=
  match todos with
  | [] => 0
  | t :: rest =>
      match Todo.completed t with
      | false => S (remainingCount rest)
      | true => remainingCount rest
      end
  end.

(** ** Strings: [String.prototype.trim] and truthiness *)

(** WhiteSpace and LineTerminator code units below 256. *)
Definition isWhiteSpace (c : ascii) : bool :=
  let n := nat_of_ascii c in
  ((9 <=? n) && (n <=? 13) || (n =? 32) || (n =? 160))%nat.

Fixpoint trimStart (s : string) : string :=
  match s with
  | EmptyString => EmptyString
  | String c rest => if isWhiteSpace c then trimStart rest else s
  end.

Definition trimEnd (s : string) : string :=
  String.rev (trimStart (String.rev s)).

Definition trim (s : string) : string := trimEnd (trimStart s).

(** A string is falsy exactly when it is empty: [!title]. *)
Definition falsy (s : string) : bool := String.eqb s "".

(** ** JSON bodies sent to the store *)

Inductive Json : Type :=
| JNull
| JBool (b : bool)
| JNum (n : Z)
| JStr (s : string)
| JArr (items : list Json)
| JObj (fields : list (string * Json)).

Definition todoToJson (t : Todo.t) : Json :=
  JObj [("id", JNum (Todo.id t));
        ("text", JStr (Todo.text t));
        ("completed", JBool (Todo.completed t))].

(** [JSON.stringify({ title, todos: [], createdAt })] *)
Definition createBody (title createdAt : string) : Json :=
  JObj [("title", JStr title); ("todos", JArr []); ("createdAt", JStr createdAt)].

(** [JSON.stringify({ todos: updatedTodos })] *)
Definition todosBody (updatedTodos : list Todo.t) : Json :=
  JObj [("todos", JArr (map todoToJson updatedTodos))].

(** The names of the fields of a body, in order. *)
Definition fieldNames (body : Json) : list string :=
  match body with
  | JObj fields => map fst fields
  | _ => []
  end.

Fixpoint assoc (name : string) (fields : list (string * Json)) : option Json :=
  match fields with
  | [] => None
  | (k, v) :: rest => if String.eqb k name then Some v else assoc name rest
  end.

Definition field (name : string) (body : Json) : option Json :=
  match body with
  | JObj fields => assoc name fields
  | _ => None
  end.

(** Reading a body back, as the store does. *)
Definition jsonToTodo (j : Json) : option Todo.t :=
  match field "id" j, field "text" j, field "completed" j with
  | Some (JNum i), Some (JStr x), Some (JBool c) => Some (Todo.mk i x c)
  | _, _, _ => None
  end.

Definition bodyTodos (body : Json) : option (list Todo.t) :=
  match field "todos" body with
  | Some (JArr items) => mapM jsonToTodo items
  | _ => None
  end.

(** ** Requests, setters and handler programs *)

(** The four calls of [fetch]: [fetch(API)], [POST] to [API], and [PATCH] and
    [DELETE] to [`${API}/${groupId}`]. *)
Inductive Request : Type :=
| GET
| POST (body : Json)
| PATCH (groupId : string) (body : Json)
| DELETE (groupId : string).

(** What the code reads from a resolved request: [res.json()] for the first
    three, nothing for [DELETE]. *)
Definition Reply (r : Request) : Type :=
  match r with
  | GET => list Group.t
  | POST _ => Group.t
  | PATCH _ _ => Group.t
  | DELETE _ => unit
  end.

Inductive Outcome (A : Type) : Type :=
| Resolved (v : A)
| Rejected.
Arguments Resolved {A} v.
Arguments Rejected {A}.

Definition isResolved {A} (o : Outcome A) : bool :=
  match o with Resolved _ => true | Rejected => false end.

(** The state setters and [alert]. *)
Inductive Effect : Type :=
| SetGroups (v : list Group.t)
| SetGroupInput (v : string)
| SetFilter (v : string)
| SetTodoInputs (v : gmap string string)
| SetLoading (v : bool)
| Alert (message : string).

Inductive Prog (A : Type) : Type :=
| Ret (a : A)
| Raise
| Act (e : Effect) (k : Prog A)
| Fetch (r : Request) (k : Outcome (Reply r) -> Prog A).
Arguments Ret {A} a.
Arguments Raise {A}.
Arguments Act {A} e k.
Arguments Fetch {A} r k.

Fixpoint bind {A B} (p : Prog A) (f : A -> Prog B) : Prog B :=
  match p with
  | Ret a => f a
  | Raise => Raise
  | Act e k => Act e (bind k f)
  | Fetch r k => Fetch r (fun o => bind (k o) f)
  end.

#[export] Instance Prog_ret : MRet Prog := @Ret.
#[export] Instance Prog_bind : MBind Prog := fun A B f p => bind p f.

(** [await fetch(...)], followed by [await res.json()] where the request has
    a reply: a rejection leaves the [async] function at once. *)
Definition await (r : Request) : Prog (Reply r) :=
  Fetch r (fun o => match o with Resolved v => Ret v | Rejected => Raise end).

Definition call (e : Effect) : Prog unit := Act e (Ret tt).

(** [p.catch(() => h)] *)
Fixpoint catch {A} (p : Prog A) (h : Prog A) : Prog A :=
  match p with
  | Ret a => Ret a
  | Raise => h
  | Act e k => Act e (catch k h)
  | Fetch r k => Fetch r (fun o => catch (k o) h)
  end.

(** [p.finally(() => f)] *)
Fixpoint finally {A} (p : Prog A) (f : Prog unit) : Prog A :=
  match p with
  | Ret a => f ;; Ret a
  | Raise => f ;; Raise
  | Act e k => Act e (finally k f)
  | Fetch r k => Fetch r (fun o => finally (k o) f)
  end.

(** ** Running a program *)

(** A store answers every request, by resolving it or by rejecting it. *)
Definition Store : Type := forall r : Request, Outcome (Reply r).

Definition apply (e : Effect) (st : State.t) : State.t :=
  match e with
  | SetGroups v =>
      State.mk v (State.groupInput st) (State.filter st) (State.todoInputs st) (State.loading st)
  | SetGroupInput v =>
      State.mk (State.groups st) v (State.filter st) (State.todoInputs st) (State.loading st)
  | SetFilter v =>
      State.mk (State.groups st) (State.groupInput st) v (State.todoInputs st) (State.loading st)
  | SetTodoInputs v =>
      State.mk (State.groups st) (State.groupInput st) (State.filter st) v (State.loading st)
  | SetLoading v =>
      State.mk (State.groups st) (State.groupInput st) (State.filter st) (State.todoInputs st) v
  | Alert _ => st
  end.

(** What an observer sees, in order: a request leaving, the request settling
    (resolved or not), a setter or [alert] being called. *)
Inductive Event : Type :=
| Requested (r : Request)
| Settled (r : Request) (resolved : bool)
| Called (e : Effect).

Record Run (A : Type) : Type := mkRun {
  final : State.t;
  trace : list Event;
  result : option A
}.
Arguments mkRun {A} final trace result.
Arguments final {A} r.
Arguments trace {A} r.
Arguments result {A} r.

(** [run store p st] runs [p] from the state [st] and returns the state it
    leaves, the events in order, and the value returned, [None] when the
    program ended by a rejection nobody caught.  For a handler [h s], created
    by the render of [s], [st] is the state its setters apply to: [s] itself
    when nothing else updated the state while the request was pending.  No
    handler calls a setter before its request, so the state at the start is
    also the state when the request settles. *)
Fixpoint run {A} (store : Store) (p : Prog A) (st : State.t) : Run A :=
  match p with
  | Ret a => mkRun st [] (Some a)
  | Raise => mkRun st [] None
  | Act e k =>
      let r := run store k (apply e st) in
      mkRun (final r) (Called e :: trace r) (result r)
  | Fetch q k =>
      let r := run store (k (store q)) st in
      mkRun (final r) (Requested q :: Settled q (isResolved (store q)) :: trace r) (result r)
  end.

(** The first request a program sends, when it sends one before calling any
    setter. *)
Definition firstRequest {A} (p : Prog A) : option Request :=
  match p with
  | Fetch q _ => Some q
  | _ => None
  end.

Definition isRequest (ev : Event) : bool :=
  match ev with Requested _ => true | _ => false end.

Definition isAlert (ev : Event) : bool :=
  match ev with Called (Alert _) => true | _ => false end.

(** ** The component *)

(** The mount effect: fetch the groups, adopt them, alert on a rejection,
    and clear [loading] in every case. *)
Definition useEffect : Prog unit :=
  finally
    (catch
       (data ← await GET; call (SetGroups data))
       (call (Alert "Could not connect to json-server. Run: npm run server")))
    (call (SetLoading false)).

(** [groups.find(g => g.id === groupId)]; [undefined] is [None], and reading
    [.todos] of it throws. *)
Definition findGroup (groupId : string) (groups : list Group.t) : option Group.t :=
  List.find (fun g => String.eqb (Group.id g) groupId) groups.

Definition todosOf (group : option Group.t) : Prog (list Todo.t) :=
  match group with
  | Some g => Ret (Group.todos g)
  | None => Raise
  end.

(** [groups.map(g => g.id === groupId ? updated : g)] *)
Definition replaceGroup (groupId : string) (updated : Group.t) (groups : list Group.t)
  : list Group.t :=
  map (fun g => if String.eqb (Group.id g) groupId then updated else g) groups.

(** [createdAt] stands for the value of
    [new Date().toLocaleDateString('en-US', ...)] at the call. *)
Definition addGroup (createdAt : string) (s : State.t) : Prog unit :=
  let title := trim (State.groupInput s) in
  if falsy title then Ret tt else
  saved ← await (POST (createBody title createdAt));
  call (SetGroups (State.groups s ++ [saved]));;
  call (SetGroupInput "").

Definition deleteGroup (s : State.t) (groupId : string) : Prog unit :=
  await (DELETE groupId);;
  call (SetGroups
          (List.filter (fun g => negb (String.eqb (Group.id g) groupId)) (State.groups s))).

(** [now] stands for the value of [Date.now()] at the call. *)
Definition addTodo (now : Z) (s : State.t) (groupId : string) : Prog unit :=
  let text := trim (default "" (State.todoInputs s !! groupId)) in
  if falsy text then Ret tt else
  let group := findGroup groupId (State.groups s) in
  todos ← todosOf group;
  let updatedTodos := todos ++ [Todo.mk now text false] in
  updated ← await (PATCH groupId (todosBody updatedTodos));
  call (SetGroups (replaceGroup groupId updated (State.groups s)));;
  call (SetTodoInputs (<[groupId := ""]> (State.todoInputs s))).

(** The [updatedTodos] of [toggleTodo]. *)
Definition toggled (todoId : Z) (todos : list Todo.t) : list Todo.t :=
  map (fun t =>
         if Z.eqb (Todo.id t) todoId
         then Todo.mk (Todo.id t) (Todo.text t) (negb (Todo.completed t))
         else t)
      todos.

Definition toggleTodo (s : State.t) (groupId : string) (todoId : Z) : Prog unit :=
  let group := findGroup groupId (State.groups s) in
  todos ← todosOf group;
  let updatedTodos := toggled todoId todos in
  updated ← await (PATCH groupId (todosBody updatedTodos));
  call (SetGroups (replaceGroup groupId updated (State.groups s))).

Definition deleteTodo (s : State.t) (groupId : string) (todoId : Z) : Prog unit :=
  let group := findGroup groupId (State.groups s) in
  todos ← todosOf group;
  let updatedTodos := List.filter (fun t => negb (Z.eqb (Todo.id t) todoId)) todos in
  updated ← await (PATCH groupId (todosBody updatedTodos));
  call (SetGroups (replaceGroup groupId updated (State.groups s))).

(** The handlers wired in the JSX, each with the values it reads from its
    environment when called. *)
Inductive Op : Type :=
| OpAddGroup (createdAt : string)
| OpDeleteGroup (groupId : string)
| OpAddTodo (now : Z) (groupId : string)
| OpToggleTodo (groupId : string) (todoId : Z)
| OpDeleteTodo (groupId : string) (todoId : Z)
| OpSetFilter (f : FilterMode)
| OpChangeGroupInput (value : string)
| OpChangeTodoInput (groupId : string) (value : string).

Definition handler (op : Op) (s : State.t) : Prog unit :=
  match op with
  | OpAddGroup createdAt => addGroup createdAt s
  | OpDeleteGroup groupId => deleteGroup s groupId
  | OpAddTodo now groupId => addTodo now s groupId
  | OpToggleTodo groupId todoId => toggleTodo s groupId todoId
  | OpDeleteTodo groupId todoId => deleteTodo s groupId todoId
  | OpSetFilter f => call (SetFilter (filterName f))
  | OpChangeGroupInput value => call (SetGroupInput value)
  | OpChangeTodoInput groupId value =>
      call (SetTodoInputs (<[groupId := value]> (State.todoInputs s)))
  end.

(** A handler created by the render of [s] and run to its end before any
    other update of the state. *)
Definition perform (store : Store) (op : Op) (s : State.t) : Run unit :=
  run store (handler op s) s.

(** ** The store contract and two stores to run against *)

(** The contract of the remote store as far as todos go: the group a [POST]
    or a [PATCH] resolves with carries the todos of the body that was sent. *)
Definition honoursContract (store : Store) : Prop :=
  (forall body saved todos,
      store (POST body) = Resolved saved ->
      bodyTodos body = Some todos -> Group.todos saved = todos)
  /\ (forall groupId body updated todos,
      store (PATCH groupId body) = Resolved updated ->
      bodyTodos body = Some todos -> Group.todos updated = todos).

(** Modelled from the spec: the remote store (json-server, which is not part
    of this repository) holding the collection [db] and assigning [nextId] to
    the next group created.  [GET] lists the collection, [POST] returns the
    created group with its id, [PATCH] returns the addressed group with its
    todos replaced by the ones sent, [DELETE] resolves with a body nobody
    reads; a malformed body or an unknown id rejects. *)
Definition jsonServer (db : list Group.t) (nextId : string) : Store :=
  fun r =>
    match r return Outcome (Reply r) with
    | GET => Resolved db
    | POST body =>
        match field "title" body, field "createdAt" body, bodyTodos body with
        | Some (JStr title), Some (JStr createdAt), Some todos =>
            Resolved (Group.mk nextId title (Some createdAt) todos)
        | _, _, _ => Rejected
        end
    | PATCH groupId body =>
        match findGroup groupId db, bodyTodos body with
        | Some g, Some todos =>
            Resolved (Group.mk (Group.id g) (Group.title g) (Group.createdAt g) todos)
        | _, _ => Rejected
        end
    | DELETE _ => Resolved tt
    end.

(** A store that cannot be reached: [fetch] rejects. *)
Definition unreachable : Store :=
  fun r => Rejected.

(** ** The invariant on todo ids *)

Definition todoIdsUnique (groups : list Group.t) : Prop :=
  Forall (fun g => NoDup (map Todo.id (Group.todos g))) groups.

(** The id [addTodo] is about to generate is not yet an id of the group it
    adds to; nothing is asked of the other handlers. *)
Definition freshId (op : Op) (s : State.t) : Prop :=
  match op with
  | OpAddTodo now groupId =>
      forall g, findGroup groupId (State.groups s) = Some g ->
                now ∉ map Todo.id (Group.todos g)
  | _ => True
  end.

(** ** Fixtures of [App.test.js] *)

Definition mockGroup : Group.t := Group.mk "1" "Test Group" None [].

Definition mockGroupWithTodos : Group.t :=
  Group.mk "1" "Test Group" None
    [Todo.mk 101 "Active Todo" false; Todo.mk 102 "Completed Todo" true].

Definition groupWithOneTodo : Group.t :=
  Group.mk "1" "Test Group" None [Todo.mk 201 "Buy groceries" false].

(** A render showing [groups] with the given text typed in the two inputs of
    group ['1']. *)
Definition typed (groups : list Group.t) (groupText todoText : string) : State.t :=
  State.mk groups groupText "All" {[ "1" := todoText ]} false.

(** ** Exact subsequences

    [l'] is exactly the subsequence of [l] selected by [keep] when it is a
    subsequence of [l] (order preserved), all its elements are selected, and
    every subsequence of selected elements of [l] is a subsequence of it. *)
Definition exact_subsequence {A} (keep : A -> bool) (l l' : list A) : Prop :=
  sublist l' l
  /\ Forall (fun x => keep x = true) l'
  /\ forall k, sublist k l -> Forall (fun x => keep x = true) k -> sublist k l'.

(** ** What [TodoApp] returns

    The JSX the component returns, reduced to what depends on the state: the
    loading indicator, or the page with the group input, the filter bar, the
    message for an empty list and one card per group. *)

(** [String.prototype.toLowerCase] on the letters A to Z. *)
Definition lowerChar (c : ascii) : ascii :=
  let n := nat_of_ascii c in
  if ((65 <=? n) && (n <=? 90))%nat then ascii_of_nat (n + 32) else c.

Fixpoint toLowerCase (s : string) : string :=
  match s with
  | EmptyString => EmptyString
  | String c rest => String (lowerChar c) (toLowerCase rest)
  end.

(** One button of the filter bar: [data-testid], [className] and label. *)
Record FilterButton : Type := mkButton {
  buttonTestId : string;
  buttonClassName : string;
  buttonLabel : string
}.

Definition filterButton (filter f : string) : FilterButton :=
  {| buttonTestId := "filter-" +:+ toLowerCase f;
     buttonClassName := "filter-btn" +:+ (if String.eqb filter f then " active" else "");
     buttonLabel := f |}.

Definition filterBar (filter : string) : list FilterButton :=
  map (filterButton filter) FILTERS.

(** One [<li data-testid="todo-item">]. *)
Record TodoItem : Type := mkItem {
  itemKey : Z;
  itemChecked : bool;
  itemClassName : string;
  itemText : string
}.

Definition renderTodo (todo : Todo.t) : TodoItem :=
  {| itemKey := Todo.id todo;
     itemChecked := Todo.completed todo;
     itemClassName := "todo-text" +:+ (if Todo.completed todo then " completed" else "");
     itemText := Todo.text todo |}.

(** One [<div data-testid="todo-group">]: [cardDate] is the span rendered
    under [group.createdAt && ...], [cardInput] the value of the todo input,
    [cardNoTodos] whether 'No todos to show.' is rendered. *)
Record GroupView : Type := mkGroupView {
  cardKey : string;
  cardTitle : string;
  cardDate : option string;
  cardInput : string;
  cardNoTodos : bool;
  cardItems : list TodoItem;
  cardFooter : option string
}.

Definition renderCard (s : State.t) (group : Group.t) : GroupView :=
  let card := renderGroup (State.filter s) group in
  {| cardKey := Group.id group;
     cardTitle := Group.title group;
     cardDate :=
       match Group.createdAt group with
       | Some date => if falsy date then None else Some ("Created: " +:+ date)
       | None => None
       end;
     cardInput := default "" (State.todoInputs s !! Group.id group);
     cardNoTodos := (length (filteredTodos card) =? 0)%nat;
     cardItems := map renderTodo (filteredTodos card);
     cardFooter := groupFooter card |}.

Inductive View : Type :=
| LoadingView
| PageView (groupInputValue : string) (filters : list FilterButton)
    (noGroups : bool) (cards : list GroupView).

Definition TodoApp (s : State.t) : View :=
  if State.loading s then LoadingView
  else PageView (State.groupInput s) (filterBar (State.filter s))
         (length (State.groups s) =? 0)%nat
         (map (renderCard s) (State.groups s)).

Definition cardsOf (v : View) : list GroupView :=
  match v with
  | LoadingView => []
  | PageView _ _ _ cards => cards
  end.

(** A filter button shown as the active one. *)
Definition isActive (b : FilterButton) : bool :=
  String.eqb (buttonClassName b) "filter-btn active".

(** A string with nothing but white space in it. *)
Fixpoint allWhiteSpace (s : string) : bool :=
  match s with
  | EmptyString => true
  | String c rest => isWhiteSpace c && allWhiteSpace rest
  end.

Definition firstChar (s : string) : option ascii :=
  match s with
  | EmptyString => None
  | String c _ => Some c
  end.

Fixpoint lastChar (s : string) : option ascii :=
  match s with
  | EmptyString => None
  | String c EmptyString => Some c
  | String _ rest => lastChar rest
  end.

(** ** Sessions *)

(** A sequence of user actions, each handler created by the render of the
    state the previous one left and run to its end against the store of the
    moment. *)
Definition session (steps : list (Store * Op)) (s : State.t) : State.t :=
  fold_left (fun st step => final (perform (fst step) (snd step) st)) steps s.

Definition isCall (ev : Event) : bool :=
  match ev with Called _ => true | _ => false end.

Definition isSetGroups (ev : Event) : bool :=
  match ev with Called (SetGroups _) => true | _ => false end.

(** The contract of the remote store as far as group ids go: a [PATCH]
    resolves with a group of the id it was addressed to, and a [POST] with a
    group whose id is none of [groups]. *)
Definition assignsIds (store : Store) (groups : list Group.t) : Prop :=
  (forall body saved,
      store (POST body) = Resolved saved -> Group.id saved ∉ map Group.id groups)
  /\ (forall groupId body updated,
      store (PATCH groupId body) = Resolved updated -> Group.id updated = groupId).

(** ** The shapes a handler run can take *)

(** The setters a handler may call: all but [setLoading], and never
    [alert]. *)
Definition quiet (e : Effect) : bool :=
  match e with
  | SetLoading _ | Alert _ => false
  | _ => true
  end.

Definition replay (calls : list Effect) (st : State.t) : State.t :=
  fold_left (fun acc e => apply e acc) calls st.

(** A run from [st] either returns at once, or throws before anything
    happened, or sends one request that rejects and stops there, or goes on
    (after one resolved request, or with none) with quiet setter calls
    only. *)
Inductive HandlerRun (st : State.t) : Run unit -> Prop :=
| RunReturns : HandlerRun st (mkRun st [] (Some tt))
| RunThrows : HandlerRun st (mkRun st [] None)
| RunRejected (q : Request) :
    HandlerRun st (mkRun st [Requested q; Settled q false] None)
| RunResolved (q : Request) (calls : list Effect) :
    forallb quiet calls = true ->
    HandlerRun st (mkRun (replay calls st)
                     (Requested q :: Settled q true :: map Called calls) (Some tt))
| RunSync (e : Effect) :
    quiet e = true ->
    HandlerRun st (mkRun (apply e st) [Called e] (Some tt)).

(** ** Proof steps shared by the handlers *)

(** The cases every todo handler goes through: the group is not found and
    the handler throws, or the request rejects, and in both the groups stay;
    or the request resolves and the reply replaces the group. *)
Ltac unless_found HU :=
  match goal with
  | |- context [findGroup ?groupId ?groups] =>
      let Hf := fresh "Hf" in
      destruct (findGroup groupId groups) as [?g|] eqn:Hf; [|exact HU]
  end.

Ltac unless_resolved store HU E :=
  simpl;
  match goal with
  | |- context [store ?req] =>
      destruct (store req) as [?reply|] eqn:E; simpl; [|exact HU]
  end.

(** Every way a handler can go: blank input or not, group found or not,
    request resolved or not. *)
Ltac handler_cases store :=
  repeat (simpl;
          match goal with
          | |- context [falsy ?t] => destruct (falsy t) eqn:?
          | |- context [findGroup ?groupId ?groups] =>
              destruct (findGroup groupId groups) eqn:?
          | |- context [store ?req] => destruct (store req) eqn:?
          end);
  simpl.

(** * Properties *)

Section ExactSubsequence.
Context {A : Type} (keep : A -> bool).

Lemma filter_sublist (l : list A) : sublist (List.filter keep l) l.
Proof.
  induction l as [|x l IH]; simpl.
  - constructor.
  - destruct (keep x); [by apply sublist_skip | by apply sublist_cons].
Qed.

Lemma filter_Forall (l : list A) :
  Forall (fun x => keep x = true) (List.filter keep l).
Proof.
  induction l as [|x l IH]; simpl; [constructor|].
  destruct (keep x) eqn:E; [constructor|]; done.
Qed.

Lemma filter_greatest (l k : list A) :
  sublist k l -> Forall (fun x => keep x = true) k ->
  sublist k (List.filter keep l).
Proof.
  induction 1 as [|x k l Hs IH|x k l Hs IH]; intros Hk; simpl.
  - constructor.
  - inversion Hk as [|? ? Hx Hk']; subst. rewrite Hx.
    apply sublist_skip. by apply IH.
  - destruct (keep x); [apply sublist_cons|]; by apply IH.
Qed.

Lemma filter_exact (l : list A) : exact_subsequence keep l (List.filter keep l).
Proof.
  split; [apply filter_sublist|].
  split; [apply filter_Forall|]. intros k. apply filter_greatest.
Qed.

(** The three conditions determine the subsequence. *)
Lemma exact_subsequence_unique (l l1 l2 : list A) :
  exact_subsequence keep l l1 -> exact_subsequence keep l l2 -> l1 = l2.
Proof.
  intros (S1 & F1 & G1) (S2 & F2 & G2).
  apply (anti_symm sublist); [by apply G2 | by apply G1].
Qed.
End ExactSubsequence.

(** ** Claims on the projections *)

(** C1. [getFilteredTodos] depends only on the todo sequence and the filter
    mode: under [All] it returns the sequence itself; under [Active] exactly
    the subsequence of the todos whose [completed] is false; under
    [Completed] exactly the subsequence of those whose [completed] is true;
    order is kept in every case. *)
Theorem getFilteredTodos_spec (todos : list Todo.t) :
  getFilteredTodos (filterName All) todos = todos
  /\ exact_subsequence (fun t => bool_decide (Todo.completed t = false)) todos
       (getFilteredTodos (filterName Active) todos)
  /\ exact_subsequence (fun t => bool_decide (Todo.completed t = true)) todos
       (getFilteredTodos (filterName Completed) todos).
Proof.
  split; [reflexivity|]. split.
  - replace (getFilteredTodos (filterName Active) todos)
      with (List.filter (fun t => bool_decide (Todo.completed t = false)) todos).
    + apply filter_exact.
    + cbn. induction todos as [|t l IH]; [done|]. simpl. rewrite IH.
      by destruct (Todo.completed t).
  - replace (getFilteredTodos (filterName Completed) todos)
      with (List.filter (fun t => bool_decide (Todo.completed t = true)) todos).
    + apply filter_exact.
    + cbn. induction todos as [|t l IH]; [done|]. simpl. rewrite IH.
      by destruct (Todo.completed t).
Qed.

(** C2. The count in the footer of a group is the number of todos of the
    whole sequence of the group whose [completed] is false, and the footer is
    the same under every filter. *)
Theorem footer_counts_all_todos (filter filter' : string) (group : Group.t) :
  remaining group = remainingCount (Group.todos group)
  /\ groupFooter (renderGroup filter group) =
       match Group.todos group with
       | [] => None
       | _ :: _ => Some (pretty (remainingCount (Group.todos group)) +:+ " item(s) left")
       end
  /\ groupFooter (renderGroup filter' group) = groupFooter (renderGroup filter group).
Proof.
  assert (E : remaining group = remainingCount (Group.todos group)).
  { unfold remaining. induction (Group.todos group) as [|t l IH]; [done|].
    simpl. destruct (Todo.completed t); simpl; by rewrite IH. }
  split; [exact E|]. split; [|reflexivity].
  unfold renderGroup; simpl. rewrite E. by destruct (Group.todos group).
Qed.

Example FILTERS_are_the_modes : FILTERS = map filterName [All; Active; Completed].
Proof. reflexivity. Qed.

(** The tests of the section 'Filter functionality'. *)
Example getFilteredTodos_mockGroupWithTodos :
  map (fun f => map Todo.text (getFilteredTodos f (Group.todos mockGroupWithTodos))) FILTERS
  = [["Active Todo"; "Completed Todo"]; ["Active Todo"]; ["Completed Todo"]].
Proof. reflexivity. Qed.

(** The test 'shows correct item count for incomplete todos'. *)
Example footer_of_mockGroupWithTodos :
  map (fun f => groupFooter (renderGroup f mockGroupWithTodos)) FILTERS
  = [Some "1 item(s) left"; Some "1 item(s) left"; Some "1 item(s) left"]
  /\ groupFooter (renderGroup "All" mockGroup) = None.
Proof. split; reflexivity. Qed.

Example trim_examples :
  trim "  New Group " = "New Group" /\ trim "" = ""
  /\ trim (String (ascii_of_nat 9) (String (ascii_of_nat 10) " ")) = ""
  /\ trim " a  b " = "a  b".
Proof. repeat split; reflexivity. Qed.

(** ** The handlers *)

Lemma falsy_true (s : string) : falsy s = true <-> s = "".
Proof. apply String.eqb_eq. Qed.

Lemma falsy_false (s : string) : falsy s = false <-> s <> "".
Proof. apply String.eqb_neq. Qed.

(** C5. When [groupInput] trims to the empty string [addGroup] does nothing,
    and when [todoInputs[groupId]] (or the empty string, if there is no such
    entry) trims to the empty string [addTodo] does nothing: the handler
    returns at once, so that no request leaves, no setter is called and the
    state it runs in is left as it is. *)
Theorem blank_input_is_noop (createdAt : string) (now : Z) (groupId : string)
    (s st : State.t) (store : Store) :
  (trim (State.groupInput s) = "" ->
     addGroup createdAt s = Ret tt
     /\ run store (addGroup createdAt s) st = mkRun st [] (Some tt))
  /\ (trim (default "" (State.todoInputs s !! groupId)) = "" ->
     addTodo now s groupId = Ret tt
     /\ run store (addTodo now s groupId) st = mkRun st [] (Some tt)).
Proof.
  split; intros E.
  - unfold addGroup. rewrite E. done.
  - unfold addTodo. rewrite E. done.
Qed.

Lemma blank_input_is_noop_witness :
  let s := typed [mockGroup] "   " " " in
  run (jsonServer [mockGroup] "2") (addGroup "Jan 5, 2024" s) s = mkRun s [] (Some tt)
  /\ run (jsonServer [mockGroup] "2") (addTodo 1704412800000 s "1") s = mkRun s [] (Some tt)
  /\ run (jsonServer [mockGroup] "2") (addTodo 1704412800000 s "7") s = mkRun s [] (Some tt).
Proof.
  intros s.
  destruct (blank_input_is_noop "Jan 5, 2024" 1704412800000 "1" s s
              (jsonServer [mockGroup] "2")) as [HG HT].
  destruct (blank_input_is_noop "Jan 5, 2024" 1704412800000 "7" s s
              (jsonServer [mockGroup] "2")) as [_ HT'].
  split; [apply HG; reflexivity|].
  split; [apply HT; reflexivity | apply HT'; reflexivity].
Defined.

(** C4. [addGroup] with a title that is not blank sends one [POST].  When it
    resolves with [saved], [setGroups] is called with the groups of the
    render followed by [saved], and only after that [setGroupInput("")];
    nothing else changes.  When it rejects, no setter is called: the state,
    [groups] and [groupInput] included, is left as it is.  Here [s] is the
    state of the render the handler was created in and [st] the state it
    runs in. *)
Theorem addGroup_adopts_then_clears (createdAt : string) (s st : State.t) (store : Store) :
  trim (State.groupInput s) <> "" ->
  let req := POST (createBody (trim (State.groupInput s)) createdAt) in
  let r := run store (addGroup createdAt s) st in
  match store req with
  | Resolved saved =>
      trace r = [Requested req; Settled req true;
                 Called (SetGroups (State.groups s ++ [saved]));
                 Called (SetGroupInput "")]
      /\ final r = State.mk (State.groups s ++ [saved]) ""
                     (State.filter st) (State.todoInputs st) (State.loading st)
      /\ result r = Some tt
  | Rejected =>
      trace r = [Requested req; Settled req false]
      /\ final r = st
      /\ result r = None
  end.
Proof.
  intros Hne req r. subst r. unfold addGroup.
  apply falsy_false in Hne. rewrite Hne. fold req. simpl.
  destruct (store req) as [saved|]; simpl; done.
Qed.

Lemma addGroup_adopts_then_clears_witness :
  let s := typed [mockGroup] " New Group " "" in
  final (run (jsonServer [mockGroup] "2") (addGroup "Jan 5, 2024" s) s)
    = typed [mockGroup; Group.mk "2" "New Group" (Some "Jan 5, 2024") []] "" ""
  /\ final (run unreachable (addGroup "Jan 5, 2024" s) s) = s.
Proof.
  intros s. split.
  - pose proof (addGroup_adopts_then_clears "Jan 5, 2024" s s
                  (jsonServer [mockGroup] "2")) as H.
    simpl in H. apply H. discriminate.
  - pose proof (addGroup_adopts_then_clears "Jan 5, 2024" s s unreachable) as H.
    simpl in H. apply H. discriminate.
Defined.

Lemma run_deleteGroup (s st : State.t) (groupId : string) (store : Store) :
  run store (deleteGroup s groupId) st =
    match store (DELETE groupId) with
    | Resolved _ =>
        let kept :=
          List.filter (fun g => negb (String.eqb (Group.id g) groupId)) (State.groups s) in
        mkRun (apply (SetGroups kept) st)
              [Requested (DELETE groupId); Settled (DELETE groupId) true;
               Called (SetGroups kept)]
              (Some tt)
    | Rejected =>
        mkRun st [Requested (DELETE groupId); Settled (DELETE groupId) false] None
    end.
Proof.
  unfold deleteGroup. simpl. by destruct (store (DELETE groupId)).
Qed.

Lemma filter_ext_bool {A} (f g : A -> bool) (l : list A) :
  (forall x, f x = g x) -> List.filter f l = List.filter g l.
Proof.
  intros E. induction l as [|x l IH]; [done|]. simpl. by rewrite E, IH.
Qed.

Lemma negb_eqb_decide (a b : string) :
  negb (String.eqb a b) = bool_decide (a <> b).
Proof.
  destruct (String.eqb_spec a b) as [E|E]; simpl.
  - by rewrite bool_decide_eq_false_2; [|intros H; apply H].
  - by rewrite bool_decide_eq_true_2.
Qed.

(** C8. [deleteGroup] first sends [DELETE] for the given id and calls no
    setter before the request settles.  When the request resolves it calls
    [setGroups] once, with exactly the subsequence of the groups whose id is
    not [groupId]: the groups with that id are gone, the others are kept as
    they are and in their order.  When it rejects nothing is removed. *)
Theorem deleteGroup_removes_after_settle (s st : State.t) (groupId : string)
    (store : Store) :
  let req := DELETE groupId in
  let r := run store (deleteGroup s groupId) st in
  firstRequest (deleteGroup s groupId) = Some req
  /\ exists kept,
       exact_subsequence (fun g => bool_decide (Group.id g <> groupId))
         (State.groups s) kept
       /\ match store req with
          | Resolved _ =>
              trace r = [Requested req; Settled req true; Called (SetGroups kept)]
              /\ State.groups (final r) = kept
          | Rejected =>
              trace r = [Requested req; Settled req false]
              /\ State.groups (final r) = State.groups st
          end.
Proof.
  intros req r. split; [reflexivity|].
  exists (List.filter (fun g => bool_decide (Group.id g <> groupId)) (State.groups s)).
  split; [apply filter_exact|].
  subst r. rewrite run_deleteGroup. fold req.
  rewrite (filter_ext_bool _ (fun g => bool_decide (Group.id g <> groupId)))
    by (intros g; apply negb_eqb_decide).
  by destruct (store req).
Qed.

(** The test 'deletes a group and removes it from the list'. *)
Example deleteGroup_mockGroup :
  let s := typed [mockGroup; Group.mk "2" "Other" None []] "" "" in
  State.groups (final (run (jsonServer (State.groups s) "3") (deleteGroup s "1") s))
  = [Group.mk "2" "Other" None []].
Proof. reflexivity. Qed.

(** C10. [deleteGroup] touches [groups] only: [groupInput], [filter],
    [loading] and the whole of [todoInputs] are what they were, whatever the
    request does; the entry of [todoInputs] under the id of the deleted group
    is still there. *)
Theorem deleteGroup_keeps_inputs (s st : State.t) (groupId : string) (store : Store) :
  let r := run store (deleteGroup s groupId) st in
  State.groupInput (final r) = State.groupInput st
  /\ State.filter (final r) = State.filter st
  /\ State.todoInputs (final r) = State.todoInputs st
  /\ State.loading (final r) = State.loading st
  /\ State.todoInputs (final r) !! groupId = State.todoInputs st !! groupId.
Proof.
  intros r. subst r. rewrite run_deleteGroup.
  by destruct (store (DELETE groupId)).
Qed.

(** The buffer of a deleted group outlives the group. *)
Example deleteGroup_leaves_buffer :
  let s := typed [mockGroup] "" "half typed" in
  let s' := final (run (jsonServer [mockGroup] "2") (deleteGroup s "1") s) in
  State.groups s' = [] /\ State.todoInputs s' !! "1" = Some "half typed".
Proof. split; reflexivity. Qed.

(** C9. The mount effect, run from the initial state.  Whether the fetch
    resolves or rejects, [loading] ends false.  When it resolves with [data],
    [groups] becomes [data] and [alert] is not called.  When it rejects,
    [alert] is called exactly once, before [loading] is cleared, no other
    request is sent, and [groups] is still the empty list. *)
Theorem useEffect_settles (store : Store) :
  let r := run store useEffect initialState in
  State.loading (final r) = false
  /\ length (List.filter isRequest (trace r)) = 1
  /\ match store GET with
     | Resolved data =>
         State.groups (final r) = data
         /\ length (List.filter isAlert (trace r)) = 0
         /\ trace r = [Requested GET; Settled GET true;
                       Called (SetGroups data); Called (SetLoading false)]
     | Rejected =>
         State.groups (final r) = []
         /\ length (List.filter isAlert (trace r)) = 1
         /\ trace r = [Requested GET; Settled GET false;
                       Called (Alert "Could not connect to json-server. Run: npm run server");
                       Called (SetLoading false)]
     end.
Proof.
  intros r. subst r. unfold useEffect. simpl.
  destruct (store GET) as [data|]; simpl; done.
Qed.

(** The tests 'renders groups fetched from the server on mount' and 'shows
    alert when server is unreachable'. *)
Example useEffect_examples :
  final (run (jsonServer [mockGroup] "2") useEffect initialState)
    = State.mk [mockGroup] "" "All" ∅ false
  /\ final (run unreachable useEffect initialState) = State.mk [] "" "All" ∅ false.
Proof. split; reflexivity. Qed.

(** ** Todo handlers *)

Lemma findGroup_Some (groupId : string) (groups : list Group.t) (g : Group.t) :
  findGroup groupId groups = Some g -> g ∈ groups /\ Group.id g = groupId.
Proof.
  unfold findGroup. intros H. apply find_some in H as [Hin E].
  split; [by apply list_elem_of_In | by apply String.eqb_eq].
Qed.

(** With distinct group ids, the group found is the group of that id. *)
Lemma findGroup_present (groups : list Group.t) (g : Group.t) :
  NoDup (map Group.id groups) -> g ∈ groups ->
  findGroup (Group.id g) groups = Some g.
Proof.
  unfold findGroup. induction groups as [|h l IH]; intros ND Hin.
  - by apply elem_of_nil in Hin.
  - simpl in *. apply NoDup_cons in ND as [Hh ND].
    destruct (String.eqb_spec (Group.id h) (Group.id g)) as [E|E].
    + apply elem_of_cons in Hin as [->|Hin]; [done|].
      exfalso. apply Hh. rewrite E. by apply list_elem_of_fmap_2.
    + apply elem_of_cons in Hin as [->|Hin]; [done | by apply IH].
Qed.

Lemma replaceGroup_length (groupId : string) (updated : Group.t) (groups : list Group.t) :
  length (replaceGroup groupId updated groups) = length groups.
Proof. apply length_map. Qed.

Lemma replaceGroup_lookup (groupId : string) (updated : Group.t) (groups : list Group.t)
    (i : nat) (g : Group.t) :
  groups !! i = Some g ->
  replaceGroup groupId updated groups !! i
  = Some (if decide (Group.id g = groupId) then updated else g).
Proof.
  intros H. unfold replaceGroup. rewrite list_lookup_fmap, H. simpl.
  destruct (String.eqb_spec (Group.id g) groupId); by case_decide.
Qed.

Lemma toggled_lookup (todoId : Z) (todos : list Todo.t) (i : nat) (t : Todo.t) :
  todos !! i = Some t ->
  toggled todoId todos !! i
  = Some (if decide (Todo.id t = todoId)
          then Todo.mk (Todo.id t) (Todo.text t) (negb (Todo.completed t))
          else t).
Proof.
  intros H. unfold toggled. rewrite list_lookup_fmap, H. simpl.
  destruct (Z.eqb_spec (Todo.id t) todoId); by case_decide.
Qed.

(** C7. For a group found under [groupId], the todos [toggleTodo] sends are
    the current ones, position by position, except that a todo whose id is
    [todoId] has [completed] negated and keeps its id and text; every other
    todo is the same, and so are the length and the order. *)
Theorem toggleTodo_flips_only_the_target (s : State.t) (groupId : string) (todoId : Z)
    (group : Group.t) :
  findGroup groupId (State.groups s) = Some group ->
  exists updatedTodos,
    firstRequest (toggleTodo s groupId todoId) = Some (PATCH groupId (todosBody updatedTodos))
    /\ length updatedTodos = length (Group.todos group)
    /\ map Todo.id updatedTodos = map Todo.id (Group.todos group)
    /\ map Todo.text updatedTodos = map Todo.text (Group.todos group)
    /\ forall i t,
         Group.todos group !! i = Some t ->
         updatedTodos !! i
         = Some (if decide (Todo.id t = todoId)
                 then Todo.mk (Todo.id t) (Todo.text t) (negb (Todo.completed t))
                 else t).
Proof.
  intros Hfind. exists (toggled todoId (Group.todos group)).
  split; [unfold toggleTodo; by rewrite Hfind|].
  split; [apply length_map|].
  split; [|split].
  - unfold toggled. induction (Group.todos group) as [|t l IH]; [done|].
    simpl. rewrite IH. by destruct (Todo.id t =? todoId)%Z.
  - unfold toggled. induction (Group.todos group) as [|t l IH]; [done|].
    simpl. rewrite IH. by destruct (Todo.id t =? todoId)%Z.
  - intros i t. apply toggled_lookup.
Qed.

Lemma toggleTodo_flips_only_the_target_witness :
  exists updatedTodos,
    firstRequest (toggleTodo (typed [mockGroupWithTodos] "" "") "1" 101)
      = Some (PATCH "1" (todosBody updatedTodos))
    /\ updatedTodos !! 0%nat = Some (Todo.mk 101 "Active Todo" true)
    /\ updatedTodos !! 1%nat = Some (Todo.mk 102 "Completed Todo" true).
Proof.
  destruct (toggleTodo_flips_only_the_target (typed [mockGroupWithTodos] "" "") "1" 101
              mockGroupWithTodos eq_refl) as (u & Hreq & _ & _ & _ & Hl).
  exists u. split; [exact Hreq|].
  split; [exact (Hl 0%nat _ eq_refl) | exact (Hl 1%nat _ eq_refl)].
Defined.

(** What [todosBody] writes, [bodyTodos] reads back. *)
Lemma jsonToTodo_todoToJson (t : Todo.t) : jsonToTodo (todoToJson t) = Some t.
Proof. by destruct t. Qed.

Lemma bodyTodos_todosBody (todos : list Todo.t) :
  bodyTodos (todosBody todos) = Some todos.
Proof.
  unfold todosBody, bodyTodos. simpl.
  apply (mapM_fmap_Some jsonToTodo todoToJson). exact jsonToTodo_todoToJson.
Qed.

Lemma bodyTodos_createBody (title createdAt : string) :
  bodyTodos (createBody title createdAt) = Some [].
Proof. reflexivity. Qed.

(** C6. For a group found under [groupId] and an input that does not trim to
    the empty string, [addTodo] sends one [PATCH] for [groupId] whose body has
    the single field [todos], holding the todos of the group followed by one
    new todo: the trimmed input as text, not completed, [now] as id.  When the
    request resolves with [updated], every group of the render whose id is
    [groupId] is replaced by [updated] and the others are kept, and the entry
    of [todoInputs] under [groupId] becomes the empty string, the other
    entries being those of the render. *)
Theorem addTodo_appends_and_clears (now : Z) (s st : State.t) (groupId : string)
    (group updated : Group.t) (store : Store) :
  let text := trim (default "" (State.todoInputs s !! groupId)) in
  let updatedTodos := Group.todos group ++ [Todo.mk now text false] in
  let req := PATCH groupId (todosBody updatedTodos) in
  let r := run store (addTodo now s groupId) st in
  findGroup groupId (State.groups s) = Some group ->
  text <> "" ->
  store req = Resolved updated ->
  firstRequest (addTodo now s groupId) = Some req
  /\ fieldNames (todosBody updatedTodos) = ["todos"]
  /\ bodyTodos (todosBody updatedTodos) = Some updatedTodos
  /\ trace r = [Requested req; Settled req true;
                Called (SetGroups (State.groups (final r)));
                Called (SetTodoInputs (State.todoInputs (final r)))]
  /\ length (State.groups (final r)) = length (State.groups s)
  /\ (forall i g, State.groups s !! i = Some g ->
        State.groups (final r) !! i
        = Some (if decide (Group.id g = groupId) then updated else g))
  /\ State.todoInputs (final r) !! groupId = Some ""
  /\ (forall k, k <> groupId ->
        State.todoInputs (final r) !! k = State.todoInputs s !! k)
  /\ State.groupInput (final r) = State.groupInput st
  /\ State.filter (final r) = State.filter st
  /\ State.loading (final r) = State.loading st.
Proof.
  intros text updatedTodos req r Hfind Hne Hres.
  assert (Hprog : addTodo now s groupId =
                  (updated ← await req;
                   call (SetGroups (replaceGroup groupId updated (State.groups s)));;
                   call (SetTodoInputs (<[groupId := ""]> (State.todoInputs s))))).
  { unfold addTodo. fold text. apply falsy_false in Hne. rewrite Hne, Hfind. done. }
  assert (Hrun : r = mkRun
            (State.mk (replaceGroup groupId updated (State.groups s)) (State.groupInput st)
               (State.filter st) (<[groupId := ""]> (State.todoInputs s)) (State.loading st))
            [Requested req; Settled req true;
             Called (SetGroups (replaceGroup groupId updated (State.groups s)));
             Called (SetTodoInputs (<[groupId := ""]> (State.todoInputs s)))]
            (Some tt)).
  { subst r. rewrite Hprog. simpl. rewrite Hres. done. }
  split; [by rewrite Hprog|].
  split; [done|].
  split.
  { apply bodyTodos_todosBody. }
  rewrite Hrun. simpl.
  split; [done|].
  split; [apply replaceGroup_length|].
  split; [intros i g; apply replaceGroup_lookup|].
  split; [apply lookup_insert_eq|].
  split; [intros k Hk; by apply lookup_insert_ne|].
  done.
Qed.

Lemma addTodo_appends_and_clears_witness :
  let s := typed [mockGroup] "" " Buy groceries " in
  let updated :=
    Group.mk "1" "Test Group" None [Todo.mk 1704412800000 "Buy groceries" false] in
  let r := run (jsonServer [mockGroup] "2") (addTodo 1704412800000 s "1") s in
  firstRequest (addTodo 1704412800000 s "1")
    = Some (PATCH "1" (todosBody (Group.todos updated)))
  /\ State.groups (final r) !! 0%nat = Some updated
  /\ State.todoInputs (final r) !! "1" = Some "".
Proof.
  intros s updated r.
  destruct (addTodo_appends_and_clears 1704412800000 s s "1" mockGroup updated
              (jsonServer [mockGroup] "2") eq_refl ltac:(discriminate) eq_refl)
    as (Hreq & _ & _ & _ & _ & Hg & Hi & _).
  split; [exact Hreq|].
  split; [exact (Hg 0%nat mockGroup eq_refl) | exact Hi].
Defined.

(** ** Uniqueness of todo ids *)

Lemma run_patch (store : Store) (st : State.t) (groupId : string) (body : Json)
    (groups : list Group.t) :
  run store
    (updated ← await (PATCH groupId body);
     call (SetGroups (replaceGroup groupId updated groups))) st
  = match store (PATCH groupId body) with
    | Resolved updated =>
        mkRun (apply (SetGroups (replaceGroup groupId updated groups)) st)
          [Requested (PATCH groupId body); Settled (PATCH groupId body) true;
           Called (SetGroups (replaceGroup groupId updated groups))]
          (Some tt)
    | Rejected =>
        mkRun st [Requested (PATCH groupId body); Settled (PATCH groupId body) false] None
    end.
Proof. simpl. by destruct (store (PATCH groupId body)). Qed.

Lemma replaceGroup_Forall (P : Group.t -> Prop) (groupId : string) (updated : Group.t)
    (groups : list Group.t) :
  Forall P groups -> P updated -> Forall P (replaceGroup groupId updated groups).
Proof.
  intros HF HP. unfold replaceGroup. induction HF as [|g l Hg Hl IH]; simpl.
  - constructor.
  - constructor; [by destruct (String.eqb (Group.id g) groupId) | exact IH].
Qed.

Lemma filter_Forall_keep {A} (P : A -> Prop) (f : A -> bool) (l : list A) :
  Forall P l -> Forall P (List.filter f l).
Proof.
  induction 1 as [|x l Hx Hl IH]; simpl; [constructor|].
  destruct (f x); [by constructor | exact IH].
Qed.

Lemma todoIdsUnique_found (groupId : string) (groups : list Group.t) (g : Group.t) :
  todoIdsUnique groups -> findGroup groupId groups = Some g ->
  NoDup (map Todo.id (Group.todos g)).
Proof.
  intros HU Hf. apply findGroup_Some in Hf as [Hin _].
  unfold todoIdsUnique in HU. rewrite Forall_forall in HU. by apply HU.
Qed.

Lemma toggled_ids (todoId : Z) (todos : list Todo.t) :
  map Todo.id (toggled todoId todos) = map Todo.id todos.
Proof.
  unfold toggled. induction todos as [|t l IH]; [done|].
  simpl. rewrite IH. by destruct (Todo.id t =? todoId)%Z.
Qed.

Lemma filter_ids_NoDup (f : Todo.t -> bool) (todos : list Todo.t) :
  NoDup (map Todo.id todos) -> NoDup (map Todo.id (List.filter f todos)).
Proof.
  intros ND. apply (sublist_NoDup _ _ ND).
  apply (fmap_sublist Todo.id), filter_sublist.
Qed.

Lemma append_id_NoDup (now : Z) (text : string) (todos : list Todo.t) :
  NoDup (map Todo.id todos) -> now ∉ map Todo.id todos ->
  NoDup (map Todo.id (todos ++ [Todo.mk now text false])).
Proof.
  intros ND Hfresh. rewrite map_app. simpl. apply NoDup_app.
  split; [exact ND|]. split.
  - intros x Hx Hx'. apply list_elem_of_singleton in Hx'. by subst.
  - apply NoDup_singleton.
Qed.

Lemma jsonServer_honours (db : list Group.t) (nextId : string) :
  honoursContract (jsonServer db nextId).
Proof.
  split.
  - intros body saved todos Hres Hbody. simpl in Hres. rewrite Hbody in Hres.
    destruct (field "title" body) as [[| | |title| |]|]; try discriminate.
    destruct (field "createdAt" body) as [[| | |createdAt| |]|]; try discriminate.
    by inversion Hres.
  - intros groupId body updated todos Hres Hbody. simpl in Hres. rewrite Hbody in Hres.
    destruct (findGroup groupId db); [|discriminate]. by inversion Hres.
Qed.

(** C3, as the code has it.  Against a store that honours its contract, every
    handler keeps the todo ids of every group pairwise distinct, provided
    that, for [addTodo], the current time in milliseconds is not already the
    id of a todo of the group it adds to.  The code generates the id from the
    clock and checks nothing. *)
Theorem handlers_keep_todo_ids_unique (store : Store) (op : Op) (s : State.t) :
  honoursContract store ->
  todoIdsUnique (State.groups s) ->
  freshId op s ->
  todoIdsUnique (State.groups (final (perform store op s))).
Proof.
  intros [HPost HPatch] HU Hfresh. unfold perform.
  destruct op as [createdAt|groupId|now groupId|groupId todoId|groupId todoId|f|v|groupId v];
    simpl handler; try exact HU.
  - unfold addGroup. destruct (falsy _); [exact HU|].
    unless_resolved store HU E.
    apply Forall_app. split; [exact HU|]. constructor; [|constructor].
    rewrite (HPost _ _ [] E (bodyTodos_createBody _ _)). constructor.
  - rewrite run_deleteGroup. destruct (store (DELETE groupId)); [|exact HU].
    simpl. by apply filter_Forall_keep.
  - unfold addTodo. destruct (falsy _); [exact HU|].
    unless_found HU. unless_resolved store HU E.
    apply replaceGroup_Forall; [exact HU|].
    rewrite (HPatch _ _ _ _ E (bodyTodos_todosBody _)).
    apply append_id_NoDup; [by eapply todoIdsUnique_found | by apply Hfresh].
  - unfold toggleTodo. unless_found HU. unless_resolved store HU E.
    apply replaceGroup_Forall; [exact HU|].
    rewrite (HPatch _ _ _ _ E (bodyTodos_todosBody _)), toggled_ids.
    by eapply todoIdsUnique_found.
  - unfold deleteTodo. unless_found HU. unless_resolved store HU E.
    apply replaceGroup_Forall; [exact HU|].
    rewrite (HPatch _ _ _ _ E (bodyTodos_todosBody _)).
    apply filter_ids_NoDup. by eapply todoIdsUnique_found.
Qed.

Lemma handlers_keep_todo_ids_unique_witness :
  todoIdsUnique
    (State.groups
       (final (perform (jsonServer [groupWithOneTodo] "2") (OpAddTodo 202 "1")
                 (typed [groupWithOneTodo] "" "Walk the dog")))).
Proof.
  apply handlers_keep_todo_ids_unique.
  - apply jsonServer_honours.
  - unfold todoIdsUnique; simpl. by apply (bool_decide_unpack _).
  - simpl. intros g Hg; inversion Hg; subst; simpl. by apply (bool_decide_unpack _).
Defined.

(** C3 as stated fails.  Two todos added to a group while the clock shows the
    same millisecond get the same id: the first [addTodo] keeps the ids
    distinct, the second one, run on the state the first one left, does
    not. *)
Lemma addTodo_can_repeat_an_id :
  let now := 1704412800000%Z in
  let s0 := typed [mockGroup] "" "Buy groceries" in
  let s1 := final (perform (jsonServer (State.groups s0) "2") (OpAddTodo now "1") s0) in
  let s2 := final (perform (jsonServer (State.groups s1) "2")
                     (OpChangeTodoInput "1" "Walk the dog") s1) in
  let s3 := final (perform (jsonServer (State.groups s2) "2") (OpAddTodo now "1") s2) in
  honoursContract (jsonServer (State.groups s2) "2")
  /\ todoIdsUnique (State.groups s2)
  /\ State.groups s3
     = [Group.mk "1" "Test Group" None
          [Todo.mk now "Buy groceries" false; Todo.mk now "Walk the dog" false]]
  /\ ~ todoIdsUnique (State.groups s3).
Proof.
  intros now s0 s1 s2 s3.
  split; [apply jsonServer_honours|].
  split; [unfold todoIdsUnique; simpl; by apply (bool_decide_unpack _)|].
  split; [reflexivity|].
  intros H. unfold todoIdsUnique in H. apply Forall_inv in H. simpl in H.
  apply NoDup_cons in H as [H _]. apply H. by left.
Qed.

(** * More of the component *)

(** ** What every handler does and never does *)

Lemma handler_run (op : Op) (store : Store) (s st : State.t) :
  HandlerRun st (run store (handler op s) st).
Proof.
  destruct op; simpl handler;
    unfold addGroup, deleteGroup, addTodo, toggleTodo, deleteTodo;
    handler_cases store;
    lazymatch goal with
    | |- HandlerRun _ (mkRun _ [] (Some _)) => apply RunReturns
    | |- HandlerRun _ (mkRun _ [] None) => apply RunThrows
    | |- HandlerRun _ (mkRun _ [Requested _; Settled _ false] _) => apply RunRejected
    | |- HandlerRun _ (mkRun _ [Requested ?q; Settled _ true; Called ?a] _) =>
        by apply (RunResolved st q [a])
    | |- HandlerRun _ (mkRun _ [Requested ?q; Settled _ true; Called ?a; Called ?b] _) =>
        by apply (RunResolved st q [a; b])
    | |- HandlerRun _ (mkRun _ [Called ?e] _) => by apply (RunSync st e)
    end.
Qed.

Lemma calls_no_request (calls : list Effect) :
  List.filter isRequest (map Called calls) = [].
Proof. induction calls as [|e l IH]; [done|]. exact IH. Qed.

Lemma quiet_calls_no_alert (calls : list Effect) :
  forallb quiet calls = true -> List.filter isAlert (map Called calls) = [].
Proof.
  induction calls as [|e l IH]; [done|]. simpl.
  intros [He Hl]%andb_prop. rewrite (IH Hl). by destruct e.
Qed.

Lemma quiet_replay_loading (calls : list Effect) (st : State.t) :
  forallb quiet calls = true -> State.loading (replay calls st) = State.loading st.
Proof.
  revert st. induction calls as [|e l IH]; intros st; [done|]. simpl.
  intros [He Hl]%andb_prop. unfold replay in *. simpl. rewrite (IH _ Hl).
  by destruct e.
Qed.

(** X1. No handler retries or chains requests: whatever the input and the
    store, a handler sends at most one request, and when it sends one it does
    so before calling any setter. *)
Theorem handlers_send_at_most_one_request (op : Op) (store : Store) (s st : State.t) :
  let r := run store (handler op s) st in
  (length (List.filter isRequest (trace r)) <= 1)%nat
  /\ List.filter isRequest (trace r) = List.filter isRequest (take 1 (trace r)).
Proof.
  intros r. subst r. destruct (handler_run op store s st) as [| |q|q calls Hq|e He]; simpl.
  - split; [lia|done].
  - split; [lia|done].
  - split; [lia|done].
  - rewrite calls_no_request. split; [simpl; lia|done].
  - split; [lia|done].
Qed.

(** X2. A handler whose promise rejects, because the request was rejected or
    because the group was not found, has called no setter: the state is as it
    was, for every handler alike. *)
Theorem failed_handler_changes_nothing (op : Op) (store : Store) (s st : State.t) :
  result (run store (handler op s) st) = None ->
  final (run store (handler op s) st) = st
  /\ List.filter isCall (trace (run store (handler op s) st)) = [].
Proof.
  destruct (handler_run op store s st) as [| |q|q calls Hq|e He]; simpl;
    intros H; try discriminate; done.
Qed.

Lemma failed_handler_changes_nothing_witness :
  let s := typed [mockGroupWithTodos] "New Group" "Buy groceries" in
  final (run unreachable (handler (OpAddTodo 1704412800000 "1") s) s) = s
  /\ final (run unreachable (handler (OpDeleteGroup "1") s) s) = s
  /\ final (run (jsonServer [mockGroupWithTodos] "2") (handler (OpToggleTodo "7" 101) s) s)
     = s.
Proof.
  intros s.
  split; [|split];
    refine (proj1 (failed_handler_changes_nothing _ _ s s _)); reflexivity.
Defined.

(** X3. Failures of the handlers are silent and the loading indicator never
    comes back: no handler calls [alert], none changes [loading], and
    [filter] changes only through a filter button, to the name of that
    button. *)
Theorem handlers_never_alert (op : Op) (store : Store) (s st : State.t) :
  let r := run store (handler op s) st in
  List.filter isAlert (trace r) = []
  /\ State.loading (final r) = State.loading st
  /\ State.filter (final r)
     = match op with
       | OpSetFilter f => filterName f
       | _ => State.filter st
       end.
Proof.
  intros r. subst r. split; [|split].
  - destruct (handler_run op store s st) as [| |q|q calls Hq|e He]; simpl; try done.
    + by apply quiet_calls_no_alert.
    + by destruct e.
  - destruct (handler_run op store s st) as [| |q|q calls Hq|e He]; simpl; try done.
    + by apply quiet_replay_loading.
    + by destruct e.
  - destruct op; simpl handler;
      unfold addGroup, deleteGroup, addTodo, toggleTodo, deleteTodo;
      handler_cases store; done.
Qed.

(** X4. A todo handler called for a group id that is not in [groups] throws
    when it reads [group.todos]: it sends nothing and sets nothing.  For
    [addTodo] this is so when the input is not blank; with a blank input it
    returns before looking the group up. *)
Theorem todo_handlers_throw_without_group (now : Z) (s st : State.t)
    (groupId : string) (todoId : Z) (store : Store) :
  findGroup groupId (State.groups s) = None ->
  run store (toggleTodo s groupId todoId) st = mkRun st [] None
  /\ run store (deleteTodo s groupId todoId) st = mkRun st [] None
  /\ run store (addTodo now s groupId) st
     = mkRun st [] (if falsy (trim (default "" (State.todoInputs s !! groupId)))
                    then Some tt else None).
Proof.
  intros Hf. unfold toggleTodo, deleteTodo, addTodo. rewrite Hf.
  by destruct (falsy _).
Qed.

Lemma todo_handlers_throw_without_group_witness :
  let s := typed [mockGroup] "" "Buy groceries" in
  run (jsonServer [mockGroup] "2") (toggleTodo s "7" 101) s = mkRun s [] None
  /\ run (jsonServer [mockGroup] "2") (deleteTodo s "7" 101) s = mkRun s [] None.
Proof.
  intros s.
  destruct (todo_handlers_throw_without_group 0 s s "7" 101
              (jsonServer [mockGroup] "2") eq_refl) as (H1 & H2 & _).
  split; [exact H1 | exact H2].
Defined.

Lemma negb_Zeqb_decide (a b : Z) : negb (a =? b)%Z = bool_decide (a <> b).
Proof.
  destruct (Z.eqb_spec a b) as [E|E]; simpl.
  - by rewrite bool_decide_eq_false_2; [|intros H; apply H].
  - by rewrite bool_decide_eq_true_2.
Qed.

(** X5. For a group found under [groupId], [deleteTodo] sends one [PATCH]
    whose todos are exactly the subsequence of the todos of the group whose id
    is not [todoId]: every todo of that id goes, the others stay as they are
    and in their order.  When the request resolves the reply replaces every
    group of that id and nothing else changes; when it rejects nothing
    changes at all. *)
Theorem deleteTodo_removes_matching (s st : State.t) (groupId : string) (todoId : Z)
    (group : Group.t) (store : Store) :
  findGroup groupId (State.groups s) = Some group ->
  exists kept,
    exact_subsequence (fun t => bool_decide (Todo.id t <> todoId)) (Group.todos group) kept
    /\ firstRequest (deleteTodo s groupId todoId) = Some (PATCH groupId (todosBody kept))
    /\ match store (PATCH groupId (todosBody kept)) with
       | Resolved updated =>
           final (run store (deleteTodo s groupId todoId) st)
           = State.mk (replaceGroup groupId updated (State.groups s))
               (State.groupInput st) (State.filter st) (State.todoInputs st)
               (State.loading st)
           /\ forall i g, State.groups s !! i = Some g ->
                replaceGroup groupId updated (State.groups s) !! i
                = Some (if decide (Group.id g = groupId) then updated else g)
       | Rejected => final (run store (deleteTodo s groupId todoId) st) = st
       end.
Proof.
  intros Hf.
  exists (List.filter (fun t => bool_decide (Todo.id t <> todoId)) (Group.todos group)).
  split; [apply filter_exact|].
  assert (E : List.filter (fun t => negb (Todo.id t =? todoId)%Z) (Group.todos group)
              = List.filter (fun t => bool_decide (Todo.id t <> todoId)) (Group.todos group)).
  { apply filter_ext_bool. intros t. apply negb_Zeqb_decide. }
  unfold deleteTodo. rewrite Hf. simpl. rewrite E.
  split; [done|].
  destruct (store (PATCH groupId _)) as [updated|]; simpl; [|done].
  split; [done|]. intros i g. apply replaceGroup_lookup.
Qed.

Lemma deleteTodo_removes_matching_witness :
  exists kept,
    firstRequest (deleteTodo (typed [mockGroupWithTodos] "" "") "1" 101)
    = Some (PATCH "1" (todosBody kept))
    /\ exact_subsequence (fun t => bool_decide (Todo.id t <> 101%Z))
         (Group.todos mockGroupWithTodos) kept.
Proof.
  destruct (deleteTodo_removes_matching (typed [mockGroupWithTodos] "" "")
              (typed [mockGroupWithTodos] "" "") "1" 101 mockGroupWithTodos
              (jsonServer [mockGroupWithTodos] "2") eq_refl) as (kept & Hk & Hreq & _).
  exists kept. split; [exact Hreq | exact Hk].
Defined.

(** ** How handlers compose *)

(** X6. The groups a handler sets are computed from the render it was created
    in, not from the state its response arrives in: when it calls
    [setGroups] at all, [groups] ends as if nothing had happened since that
    render.  So of two handlers started from one render, the one whose
    response is adopted last discards what the other did to [groups]. *)
Theorem later_response_wins (op : Op) (store : Store) (s st : State.t) :
  existsb isSetGroups (trace (run store (handler op s) st)) = true ->
  State.groups (final (run store (handler op s) st))
  = State.groups (final (perform store op s)).
Proof.
  unfold perform. destruct op; simpl handler;
    unfold addGroup, deleteGroup, addTodo, toggleTodo, deleteTodo;
    handler_cases store; intros H; try discriminate; done.
Qed.

(** Two quick toggles of the two todos of [mockGroupWithTodos], both clicked
    in the same render: once both responses are adopted only the second
    toggle shows. *)
Lemma later_response_wins_witness :
  let s := typed [mockGroupWithTodos] "" "" in
  let s1 := final (perform (jsonServer (State.groups s) "2") (OpToggleTodo "1" 101) s) in
  let s2 := final (run (jsonServer (State.groups s1) "2")
                     (handler (OpToggleTodo "1" 102) s) s1) in
  map Group.todos (State.groups s1)
  = [[Todo.mk 101 "Active Todo" true; Todo.mk 102 "Completed Todo" true]]
  /\ map Group.todos (State.groups s2)
     = [[Todo.mk 101 "Active Todo" false; Todo.mk 102 "Completed Todo" false]].
Proof.
  intros s s1 s2. split; [reflexivity|]. subst s2.
  rewrite (later_response_wins (OpToggleTodo "1" 102)
             (jsonServer (State.groups s1) "2") s s1 eq_refl).
  reflexivity.
Defined.

(** X7. Toggling is its own inverse on the todos sent: the todos [toggleTodo]
    would send for the todos it sent before, with the same id, are the todos
    it started from. *)
Theorem toggleTodo_twice_restores (s s' : State.t) (groupId : string) (todoId : Z)
    (group group' : Group.t) :
  findGroup groupId (State.groups s) = Some group ->
  findGroup groupId (State.groups s') = Some group' ->
  firstRequest (toggleTodo s groupId todoId)
  = Some (PATCH groupId (todosBody (Group.todos group'))) ->
  firstRequest (toggleTodo s' groupId todoId)
  = Some (PATCH groupId (todosBody (Group.todos group))).
Proof.
  intros Hf Hf' Hreq. unfold toggleTodo in *. rewrite Hf in Hreq. rewrite Hf'.
  simpl in *. injection Hreq as Hreq.
  apply (f_equal (mapM jsonToTodo)) in Hreq.
  rewrite !(mapM_fmap_Some jsonToTodo todoToJson _ jsonToTodo_todoToJson) in Hreq.
  injection Hreq as <-. do 3 f_equal.
  unfold toggled. rewrite map_map. rewrite <- (map_id (Group.todos group)) at 2.
  apply map_ext. intros [i x c]. simpl.
  destruct (Z.eqb_spec i todoId) as [E|E]; simpl.
  - rewrite (proj2 (Z.eqb_eq i todoId) E). by rewrite negb_involutive.
  - by rewrite (proj2 (Z.eqb_neq i todoId) E).
Qed.

Lemma toggleTodo_twice_restores_witness :
  let s := typed [mockGroupWithTodos] "" "" in
  let s' := final (perform (jsonServer (State.groups s) "2") (OpToggleTodo "1" 101) s) in
  firstRequest (toggleTodo s' "1" 101)
  = Some (PATCH "1" (todosBody (Group.todos mockGroupWithTodos))).
Proof.
  intros s s'.
  exact (toggleTodo_twice_restores s s' "1" 101 mockGroupWithTodos
           (Group.mk "1" "Test Group" None
              [Todo.mk 101 "Active Todo" true; Todo.mk 102 "Completed Todo" true])
           eq_refl eq_refl eq_refl).
Defined.

Lemma toggled_absent (todoId : Z) (todos : list Todo.t) :
  todoId ∉ map Todo.id todos -> toggled todoId todos = todos.
Proof.
  induction todos as [|h l IH]; [done|]. simpl. intros Hn.
  apply not_elem_of_cons in Hn as [Hh Hl].
  destruct (Z.eqb_spec (Todo.id h) todoId) as [E|E]; [by subst|].
  by rewrite (IH Hl).
Qed.

Lemma filter_absent (todoId : Z) (todos : list Todo.t) :
  todoId ∉ map Todo.id todos ->
  List.filter (fun t => negb (Todo.id t =? todoId)%Z) todos = todos.
Proof.
  induction todos as [|h l IH]; [done|]. simpl. intros Hn.
  apply not_elem_of_cons in Hn as [Hh Hl].
  destruct (Z.eqb_spec (Todo.id h) todoId) as [E|E]; [by subst|].
  simpl. by rewrite (IH Hl).
Qed.

Lemma toggled_count (t : Todo.t) (todos : list Todo.t) :
  NoDup (map Todo.id todos) -> t ∈ todos ->
  if Todo.completed t
  then remainingCount (toggled (Todo.id t) todos) = S (remainingCount todos)
  else S (remainingCount (toggled (Todo.id t) todos)) = remainingCount todos.
Proof.
  induction todos as [|h l IH]; intros ND Hin; [by apply elem_of_nil in Hin|].
  simpl in ND. apply NoDup_cons in ND as [Hh ND].
  apply elem_of_cons in Hin as [->|Hin].
  - simpl. rewrite Z.eqb_refl, (toggled_absent _ _ Hh). simpl.
    by destruct (Todo.completed h).
  - assert (Hne : Todo.id h <> Todo.id t).
    { intros E. apply Hh. rewrite E. by apply list_elem_of_fmap_2. }
    simpl. rewrite (proj2 (Z.eqb_neq _ _) Hne).
    specialize (IH ND Hin). simpl.
    destruct (Todo.completed t), (Todo.completed h); lia.
Qed.

(** X8. With distinct todo ids in the group, toggling a todo of the group
    moves the count of todos left by exactly one: the todos sent have one
    more open todo when the todo was completed, one fewer when it was
    not. *)
Theorem toggleTodo_moves_count_by_one (s : State.t) (groupId : string)
    (group : Group.t) (t : Todo.t) :
  findGroup groupId (State.groups s) = Some group ->
  NoDup (map Todo.id (Group.todos group)) ->
  t ∈ Group.todos group ->
  exists updatedTodos,
    firstRequest (toggleTodo s groupId (Todo.id t))
    = Some (PATCH groupId (todosBody updatedTodos))
    /\ if Todo.completed t
       then remainingCount updatedTodos = S (remainingCount (Group.todos group))
       else S (remainingCount updatedTodos) = remainingCount (Group.todos group).
Proof.
  intros Hf ND Hin. exists (toggled (Todo.id t) (Group.todos group)).
  split; [unfold toggleTodo; by rewrite Hf | by apply toggled_count].
Qed.

Lemma toggleTodo_moves_count_by_one_witness :
  exists updatedTodos,
    firstRequest (toggleTodo (typed [mockGroupWithTodos] "" "") "1" 101)
    = Some (PATCH "1" (todosBody updatedTodos))
    /\ S (remainingCount updatedTodos) = remainingCount (Group.todos mockGroupWithTodos).
Proof.
  exact (toggleTodo_moves_count_by_one (typed [mockGroupWithTodos] "" "") "1"
           mockGroupWithTodos (Todo.mk 101 "Active Todo" false) eq_refl
           ltac:(by apply (bool_decide_unpack _))
           ltac:(by constructor)).
Defined.

(** X9. A todo id that no todo of the group has does not stop [toggleTodo]
    or [deleteTodo]: each still sends its [PATCH], carrying the todos of the
    group unchanged. *)
Theorem unknown_todo_id_sends_todos_unchanged (s : State.t) (groupId : string)
    (todoId : Z) (group : Group.t) :
  findGroup groupId (State.groups s) = Some group ->
  todoId ∉ map Todo.id (Group.todos group) ->
  firstRequest (toggleTodo s groupId todoId)
  = Some (PATCH groupId (todosBody (Group.todos group)))
  /\ firstRequest (deleteTodo s groupId todoId)
     = Some (PATCH groupId (todosBody (Group.todos group))).
Proof.
  intros Hf Hn. unfold toggleTodo, deleteTodo. rewrite Hf. simpl.
  by rewrite (toggled_absent _ _ Hn), (filter_absent _ _ Hn).
Qed.

Lemma unknown_todo_id_sends_todos_unchanged_witness :
  firstRequest (toggleTodo (typed [mockGroupWithTodos] "" "") "1" 999)
  = Some (PATCH "1" (todosBody (Group.todos mockGroupWithTodos)))
  /\ firstRequest (deleteTodo (typed [mockGroupWithTodos] "" "") "1" 999)
     = Some (PATCH "1" (todosBody (Group.todos mockGroupWithTodos))).
Proof.
  exact (unknown_todo_id_sends_todos_unchanged (typed [mockGroupWithTodos] "" "") "1" 999
           mockGroupWithTodos eq_refl ltac:(by apply (bool_decide_unpack _))).
Defined.

(** X10. Deleting the todo just added undoes the addition, as long as the id
    taken from the clock was new to the group: for a group holding the todos
    [addTodo] sent, [deleteTodo] with that id sends the todos from before. *)
Theorem deleteTodo_undoes_addTodo (s' : State.t) (groupId : string) (group' : Group.t)
    (todos : list Todo.t) (now : Z) (text : string) :
  findGroup groupId (State.groups s') = Some group' ->
  Group.todos group' = todos ++ [Todo.mk now text false] ->
  now ∉ map Todo.id todos ->
  firstRequest (deleteTodo s' groupId now) = Some (PATCH groupId (todosBody todos)).
Proof.
  intros Hf Ht Hn. unfold deleteTodo. rewrite Hf. simpl. rewrite Ht.
  rewrite List.filter_app, (filter_absent _ _ Hn). simpl.
  by rewrite Z.eqb_refl, app_nil_r.
Qed.

Lemma deleteTodo_undoes_addTodo_witness :
  let s := typed [groupWithOneTodo] "" "Walk the dog" in
  let s' := final (perform (jsonServer (State.groups s) "2") (OpAddTodo 202 "1") s) in
  firstRequest (deleteTodo s' "1" 202)
  = Some (PATCH "1" (todosBody (Group.todos groupWithOneTodo))).
Proof.
  intros s s'.
  exact (deleteTodo_undoes_addTodo s' "1"
           (Group.mk "1" "Test Group" None
              [Todo.mk 201 "Buy groceries" false; Todo.mk 202 "Walk the dog" false])
           (Group.todos groupWithOneTodo) 202 "Walk the dog" eq_refl eq_refl
           ltac:(by apply (bool_decide_unpack _))).
Defined.

(** X11. Adding a todo adds one to the count in the footer.  Against a store
    that honours its contract, when [addTodo] goes through, the group in the
    place of each group of id [groupId] has one more todo left than the group
    the todo was added to, and its card has a footer saying so, under every
    filter. *)
Theorem addTodo_adds_one_to_footer (now : Z) (s : State.t) (groupId : string)
    (group g : Group.t) (store : Store) (filter : string) (i : nat) :
  honoursContract store ->
  findGroup groupId (State.groups s) = Some group ->
  trim (default "" (State.todoInputs s !! groupId)) <> "" ->
  result (perform store (OpAddTodo now groupId) s) = Some tt ->
  State.groups s !! i = Some g ->
  Group.id g = groupId ->
  exists updated,
    State.groups (final (perform store (OpAddTodo now groupId) s)) !! i = Some updated
    /\ remaining updated = S (remaining group)
    /\ groupFooter (renderGroup filter updated)
       = Some (pretty (S (remaining group)) +:+ " item(s) left").
Proof.
  intros [_ HPatch] Hf Hne Hres Hi Hid. apply falsy_false in Hne.
  unfold perform in *. simpl handler in *. unfold addTodo in *.
  rewrite Hne, Hf in *. simpl in *.
  destruct (store (PATCH groupId _)) as [updated|] eqn:E; simpl in *; [|discriminate].
  exists updated. rewrite (replaceGroup_lookup _ _ _ _ _ Hi).
  split; [by rewrite decide_True|].
  pose proof (HPatch _ _ _ _ E (bodyTodos_todosBody _)) as Ht.
  assert (Hr : remaining updated = S (remaining group)).
  { unfold remaining. rewrite Ht, List.filter_app, length_app. simpl. lia. }
  split; [exact Hr|].
  unfold renderGroup. simpl. rewrite Hr, Ht, length_app. simpl.
  by replace (0 <? length (Group.todos group) + 1)%nat with true
    by (symmetry; apply Nat.ltb_lt; lia).
Qed.

Lemma addTodo_adds_one_to_footer_witness :
  let s := typed [groupWithOneTodo] "" "Walk the dog" in
  exists updated,
    State.groups (final (perform (jsonServer (State.groups s) "2") (OpAddTodo 202 "1") s))
      !! 0%nat = Some updated
    /\ groupFooter (renderGroup "Completed" updated) = Some "2 item(s) left".
Proof.
  intros s.
  destruct (addTodo_adds_one_to_footer 202 s "1" groupWithOneTodo groupWithOneTodo
              (jsonServer (State.groups s) "2") "Completed" 0
              (jsonServer_honours _ _) eq_refl ltac:(discriminate) eq_refl eq_refl eq_refl)
    as (updated & Hl & _ & Hfoot).
  exists updated. split; [exact Hl | exact Hfoot].
Defined.

(** ** The filter projector *)

(** X12. Active and Completed split the todos: the two views together are a
    rearrangement of the todos, each todo counted once, so their lengths add
    up to the number of todos; and the count in the footer is the number of
    todos listed under Active. *)
Theorem active_and_completed_partition (todos : list Todo.t) (group : Group.t) :
  Permutation (getFilteredTodos "Active" todos ++ getFilteredTodos "Completed" todos) todos
  /\ (length (getFilteredTodos "Active" todos)
      + length (getFilteredTodos "Completed" todos) = length todos)%nat
  /\ remaining group = length (getFilteredTodos "Active" (Group.todos group)).
Proof.
  assert (HP : Permutation
                 (getFilteredTodos "Active" todos ++ getFilteredTodos "Completed" todos)
                 todos).
  { cbn. induction todos as [|t l IH]; [done|]. simpl.
    destruct (Todo.completed t); simpl.
    - rewrite <- Permutation_middle. by constructor.
    - by constructor. }
  split; [exact HP|]. split; [|reflexivity].
  rewrite <- length_app. by apply Permutation_length.
Qed.

(** X13. Whatever string [filter] holds, [getFilteredTodos] lists todos of the
    sequence only, in their order and none twice as often as it occurs, and
    filtering what is already filtered changes nothing; a string that is
    neither 'Active' nor 'Completed' lists them all. *)
Theorem getFilteredTodos_any_filter (filter : string) (todos : list Todo.t) :
  sublist (getFilteredTodos filter todos) todos
  /\ getFilteredTodos filter (getFilteredTodos filter todos) = getFilteredTodos filter todos
  /\ (filter ∉ ["Active"; "Completed"] -> getFilteredTodos filter todos = todos).
Proof.
  unfold getFilteredTodos.
  destruct (String.eqb_spec filter "Active") as [EA|EA];
    [|destruct (String.eqb_spec filter "Completed") as [EC|EC]].
  - split; [apply filter_sublist|]. split.
    + induction todos as [|t l IH]; [done|]. simpl.
      destruct (Todo.completed t) eqn:E; simpl; [done|]. by rewrite E, IH.
    + intros H. exfalso. apply H. subst. by left.
  - split; [apply filter_sublist|]. split.
    + induction todos as [|t l IH]; [done|]. simpl.
      destruct (Todo.completed t) eqn:E; simpl; [|done]. by rewrite E, IH.
    + intros H. exfalso. apply H. subst. right. by left.
  - done.
Qed.

Lemma getFilteredTodos_any_filter_witness :
  getFilteredTodos "active" (Group.todos mockGroupWithTodos)
  = Group.todos mockGroupWithTodos.
Proof.
  apply (getFilteredTodos_any_filter "active" (Group.todos mockGroupWithTodos)).
  by apply (bool_decide_unpack _).
Defined.

(** ** The view *)

(** X14. Before the groups are fetched the component shows the loading
    indicator and nothing else.  Once the fetch has settled it shows the page,
    whether the fetch resolved or not: with an empty group input, the filter
    bar of All, and one card per group fetched, in their order; after a
    rejection, and after an empty list, with the message for an empty list
    and no card. *)
Theorem mount_then_page (store : Store) :
  let s := final (run store useEffect initialState) in
  TodoApp initialState = LoadingView
  /\ match store GET with
     | Resolved data =>
         TodoApp s = PageView "" (filterBar "All") (length data =? 0)%nat
                       (map (renderCard s) data)
         /\ map cardKey (cardsOf (TodoApp s)) = map Group.id data
     | Rejected => TodoApp s = PageView "" (filterBar "All") true []
     end.
Proof.
  intros s. subst s. split; [reflexivity|]. unfold useEffect. simpl.
  destruct (store GET) as [data|]; simpl; [|done].
  split; [done|]. unfold TodoApp. simpl. by rewrite map_map.
Qed.

Lemma perform_loading_filter (op : Op) (store : Store) (s : State.t) :
  State.loading (final (perform store op s)) = State.loading s
  /\ (State.filter (final (perform store op s)) = State.filter s
      \/ State.filter (final (perform store op s)) ∈ FILTERS).
Proof.
  unfold perform. destruct op as [| | | | |f| |]; simpl handler;
    unfold addGroup, deleteGroup, addTodo, toggleTodo, deleteTodo;
    handler_cases store; (split; [done|]); try (by left).
  right. destruct f; simpl; by apply (bool_decide_unpack _).
Qed.

Lemma one_active_button (filter : string) :
  filter ∈ FILTERS -> map buttonLabel (List.filter isActive (filterBar filter)) = [filter].
Proof.
  unfold FILTERS. rewrite !elem_of_cons, elem_of_nil.
  intros [->|[->|[->|[]]]]; reflexivity.
Qed.

(** X15. Through any sequence of user actions, against any stores, the loading
    indicator does not come back and [filter] stays one of the three names of
    [FILTERS]; so the filter bar always shows exactly one button as active,
    the one [filter] names. *)
Theorem session_keeps_the_page (steps : list (Store * Op)) (s : State.t) :
  State.loading s = false ->
  State.filter s ∈ FILTERS ->
  let s' := session steps s in
  State.loading s' = false
  /\ State.filter s' ∈ FILTERS
  /\ TodoApp s' <> LoadingView
  /\ map buttonLabel (List.filter isActive (filterBar (State.filter s')))
     = [State.filter s'].
Proof.
  intros HL HF s'. subst s'.
  assert (H : State.loading (session steps s) = false
              /\ State.filter (session steps s) ∈ FILTERS).
  { revert s HL HF. induction steps as [|[store op] steps IH]; intros s HL HF; [done|].
    simpl. apply IH.
    - by rewrite (proj1 (perform_loading_filter op store s)).
    - destruct (proj2 (perform_loading_filter op store s)) as [E|E]; [by rewrite E|done]. }
  destruct H as [HL' HF']. split; [done|]. split; [done|]. split.
  - unfold TodoApp. by rewrite HL'.
  - by apply one_active_button.
Qed.

Lemma session_keeps_the_page_witness :
  let s := typed [mockGroupWithTodos] "" "Walk the dog" in
  let store := jsonServer [mockGroupWithTodos] "2" in
  let s' := session [(store, OpSetFilter Completed); (store, OpAddTodo 103 "1");
                     (unreachable, OpDeleteGroup "1"); (store, OpSetFilter Active)] s in
  TodoApp s' <> LoadingView
  /\ map buttonLabel (List.filter isActive (filterBar (State.filter s'))) = ["Active"].
Proof.
  intros s store s'.
  destruct (session_keeps_the_page
              [(store, OpSetFilter Completed); (store, OpAddTodo 103 "1");
               (unreachable, OpDeleteGroup "1"); (store, OpSetFilter Active)] s
              eq_refl ltac:(by apply (bool_decide_unpack _))) as (_ & _ & Hp & Hb).
  split; [exact Hp | exact Hb].
Defined.

(** X16. The message for no todos and the footer of a card.  A group without
    todos shows the message and no footer under every filter.  Under All the
    card shows one of the two and never both.  Under Active the message shows
    exactly when no todo is left, and then, for a group that has todos, next
    to a footer saying 0 item(s) left. *)
Theorem no_todos_message_and_footer (s : State.t) (group : Group.t) :
  let card := renderCard s group in
  (Group.todos group = [] -> cardNoTodos card = true /\ cardFooter card = None)
  /\ (State.filter s = "All" ->
        cardNoTodos card = match cardFooter card with Some _ => false | None => true end)
  /\ (State.filter s = "Active" -> cardNoTodos card = (remaining group =? 0)%nat)
  /\ (State.filter s = "Active" -> cardNoTodos card = true -> Group.todos group <> [] ->
        cardFooter card = Some "0 item(s) left").
Proof.
  intros card. subst card. unfold renderCard, renderGroup. simpl.
  split; [|split; [|split]].
  - intros E. rewrite E. simpl. split; [|done].
    unfold getFilteredTodos. by repeat destruct (String.eqb _ _).
  - intros ->. simpl. by destruct (Group.todos group).
  - by intros ->.
  - intros -> H0 Hne. apply Nat.eqb_eq in H0.
    change (remaining group = 0%nat) in H0. rewrite H0.
    by destruct (Group.todos group).
Qed.

Lemma no_todos_message_and_footer_witness :
  let done := Group.mk "1" "Test Group" None [Todo.mk 102 "Completed Todo" true] in
  let card := renderCard (State.mk [done] "" "Active" ∅ false) done in
  cardNoTodos card = true /\ cardFooter card = Some "0 item(s) left"
  /\ cardNoTodos (renderCard (typed [mockGroup] "" "") mockGroup) = true.
Proof.
  intros done card.
  destruct (no_todos_message_and_footer (State.mk [done] "" "Active" ∅ false) done)
    as (_ & _ & HA & HF).
  destruct (no_todos_message_and_footer (typed [mockGroup] "" "") mockGroup)
    as (HE & _).
  split; [exact (HA eq_refl)|].
  split; [exact (HF eq_refl eq_refl ltac:(discriminate)) | exact (proj1 (HE eq_refl))].
Defined.

(** X17. What is typed in the todo input of a group is what that input shows
    next, and only that input: the change sends no request, the card of a
    group of that id shows the new text, and every other card, input
    included, is as before. *)
Theorem typing_shows_in_its_input (store : Store) (s : State.t) (groupId value : string)
    (group : Group.t) :
  let r := perform store (OpChangeTodoInput groupId value) s in
  List.filter isRequest (trace r) = []
  /\ State.groups (final r) = State.groups s
  /\ cardInput (renderCard (final r) group)
     = (if decide (Group.id group = groupId) then value
        else cardInput (renderCard s group))
  /\ cardItems (renderCard (final r) group) = cardItems (renderCard s group)
  /\ cardFooter (renderCard (final r) group) = cardFooter (renderCard s group).
Proof.
  intros r. subst r. unfold perform, renderCard. simpl.
  split; [done|]. split; [done|]. split; [|done].
  case_decide as E.
  - subst. by rewrite lookup_insert_eq.
  - by rewrite lookup_insert_ne.
Qed.

Lemma replaceGroup_ids (groupId : string) (updated : Group.t) (groups : list Group.t) :
  Group.id updated = groupId ->
  map Group.id (replaceGroup groupId updated groups) = map Group.id groups.
Proof.
  intros E. unfold replaceGroup. induction groups as [|g l IH]; [done|].
  simpl. rewrite IH. destruct (String.eqb_spec (Group.id g) groupId); congruence.
Qed.

Lemma filter_groups_NoDup (f : Group.t -> bool) (groups : list Group.t) :
  NoDup (map Group.id groups) -> NoDup (map Group.id (List.filter f groups)).
Proof.
  intros ND. apply (sublist_NoDup _ _ ND).
  apply (fmap_sublist Group.id), filter_sublist.
Qed.

(** X18. The cards are keyed by group id, and the keys stay distinct.  Against
    a store that answers a [PATCH] with a group of the id addressed and a
    [POST] with a group of an id not yet shown, every handler keeps the ids of
    the groups pairwise distinct, and with them the keys of the cards; every
    todo handler and every input change keeps the ids and their order as they
    are. *)
Theorem handlers_keep_group_ids_unique (store : Store) (op : Op) (s : State.t) :
  assignsIds store (State.groups s) ->
  NoDup (map Group.id (State.groups s)) ->
  let s' := final (perform store op s) in
  NoDup (map Group.id (State.groups s'))
  /\ (State.loading s = false -> map cardKey (cardsOf (TodoApp s')) = map Group.id (State.groups s'))
  /\ match op with
     | OpAddGroup _ | OpDeleteGroup _ => True
     | _ => map Group.id (State.groups s') = map Group.id (State.groups s)
     end.
Proof.
  intros [HPost HPatch] ND s'. subst s'.
  assert (HK : forall st, State.loading st = false ->
                 map cardKey (cardsOf (TodoApp st)) = map Group.id (State.groups st)).
  { intros st HL. unfold TodoApp. rewrite HL. simpl. by rewrite map_map. }
  split; [|split].
  - unfold perform. destruct op; simpl handler;
      unfold addGroup, deleteGroup, addTodo, toggleTodo, deleteTodo;
      handler_cases store; try exact ND.
    + rewrite map_app. simpl. apply NoDup_app. split; [exact ND|]. split.
      * intros x Hx Hx'. apply list_elem_of_singleton in Hx'. subst.
        by eapply HPost.
      * apply NoDup_singleton.
    + by apply filter_groups_NoDup.
    + by rewrite (replaceGroup_ids _ _ _ (HPatch _ _ _ ltac:(eassumption))).
    + by rewrite (replaceGroup_ids _ _ _ (HPatch _ _ _ ltac:(eassumption))).
    + by rewrite (replaceGroup_ids _ _ _ (HPatch _ _ _ ltac:(eassumption))).
  - intros HL. apply HK.
    by rewrite (proj1 (perform_loading_filter op store s)).
  - unfold perform. destruct op; simpl handler; try exact I;
      unfold addTodo, toggleTodo, deleteTodo;
      handler_cases store; try done;
      by rewrite (replaceGroup_ids _ _ _ (HPatch _ _ _ ltac:(eassumption))).
Qed.

Lemma jsonServer_assignsIds (db groups : list Group.t) (nextId : string) :
  nextId ∉ map Group.id groups -> assignsIds (jsonServer db nextId) groups.
Proof.
  intros Hn. split.
  - intros body saved Hres. simpl in Hres.
    destruct (field "title" body) as [[| | |title| |]|]; try discriminate.
    destruct (field "createdAt" body) as [[| | |createdAt| |]|]; try discriminate.
    destruct (bodyTodos body); [|discriminate]. by inversion Hres.
  - intros groupId body updated Hres. simpl in Hres.
    destruct (findGroup groupId db) as [g|] eqn:Hf; [|discriminate].
    destruct (bodyTodos body); [|discriminate]. inversion Hres; subst. simpl.
    by apply findGroup_Some in Hf as [_ ?].
Qed.

Lemma handlers_keep_group_ids_unique_witness :
  let s := typed [mockGroup] "New Group" "" in
  NoDup (map Group.id
           (State.groups
              (final (perform (jsonServer [mockGroup] "2") (OpAddGroup "Jan 5, 2024") s)))).
Proof.
  intros s.
  refine (proj1 (handlers_keep_group_ids_unique (jsonServer [mockGroup] "2")
                   (OpAddGroup "Jan 5, 2024") s _ _)).
  - apply jsonServer_assignsIds. by apply (bool_decide_unpack _).
  - by apply (bool_decide_unpack _).
Defined.

Lemma getFilteredTodos_sublist (filter : string) (todos : list Todo.t) :
  sublist (getFilteredTodos filter todos) todos.
Proof.
  unfold getFilteredTodos. repeat destruct (String.eqb _ _); try apply filter_sublist.
  done.
Qed.

(** X19. The todo items of a card are keyed by todo id: when the todo ids of
    the group are pairwise distinct, so are the keys of the items listed,
    under every filter, and each item shows the text and the completion of
    its todo. *)
Theorem card_item_keys_distinct (s : State.t) (group : Group.t) :
  NoDup (map Todo.id (Group.todos group)) ->
  let card := renderCard s group in
  NoDup (map itemKey (cardItems card))
  /\ sublist (map itemKey (cardItems card)) (map Todo.id (Group.todos group))
  /\ Forall (fun item =>
               exists t, t ∈ Group.todos group /\ itemKey item = Todo.id t
                         /\ itemText item = Todo.text t
                         /\ itemChecked item = Todo.completed t)
       (cardItems card).
Proof.
  intros ND card. subst card. unfold renderCard, renderGroup. simpl.
  assert (HS : sublist (map itemKey
                          (map renderTodo (getFilteredTodos (State.filter s) (Group.todos group))))
                 (map Todo.id (Group.todos group))).
  { rewrite map_map. simpl. apply (fmap_sublist Todo.id), getFilteredTodos_sublist. }
  split; [by apply (sublist_NoDup _ _ ND)|]. split; [exact HS|].
  apply Forall_forall. intros item Hin.
  apply list_elem_of_In, in_map_iff in Hin as (t & <- & Hin).
  exists t. split; [|done].
  apply list_elem_of_In in Hin.
  exact (elem_of_sublist _ _ _ Hin (getFilteredTodos_sublist _ _)).
Qed.

Lemma card_item_keys_distinct_witness :
  NoDup (map itemKey
           (cardItems (renderCard (typed [mockGroupWithTodos] "" "") mockGroupWithTodos))).
Proof.
  refine (proj1 (card_item_keys_distinct (typed [mockGroupWithTodos] "" "")
                   mockGroupWithTodos _)).
  by apply (bool_decide_unpack _).
Defined.

(** ** Trimmed input *)

Lemma app_cons (a : ascii) (s t : string) : String a s +:+ t = String a (s +:+ t).
Proof. reflexivity. Qed.

Lemma app_empty_r (s : string) : s +:+ "" = s.
Proof. induction s as [|a s IH]; [done|]. by rewrite app_cons, IH. Qed.

Lemma app_assoc_string (s t u : string) : (s +:+ t) +:+ u = s +:+ (t +:+ u).
Proof. induction s as [|a s IH]; [done|]. by rewrite !app_cons, IH. Qed.

Lemma rev_app_spec (s t : string) : String.rev_app s t = String.rev s +:+ t.
Proof.
  revert t. induction s as [|a s IH]; intros t; [done|].
  unfold String.rev. simpl. rewrite (IH (String a t)), (IH (String a "")).
  by rewrite app_assoc_string.
Qed.

Lemma rev_cons (a : ascii) (s : string) :
  String.rev (String a s) = String.rev s +:+ String a "".
Proof. unfold String.rev at 1. simpl. apply rev_app_spec. Qed.

Lemma rev_snoc (a : ascii) (s : string) :
  String.rev (s +:+ String a "") = String a (String.rev s).
Proof.
  induction s as [|b s IH]; [done|].
  by rewrite app_cons, !rev_cons, IH, app_cons.
Qed.

Lemma rev_rev (s : string) : String.rev (String.rev s) = s.
Proof.
  induction s as [|a s IH]; [done|]. by rewrite rev_cons, rev_snoc, IH.
Qed.

Lemma trimStart_cases (s : string) :
  (trimStart s = "" /\ allWhiteSpace s = true)
  \/ (exists c rest, trimStart s = String c rest /\ isWhiteSpace c = false
                     /\ allWhiteSpace s = false).
Proof.
  induction s as [|a s IH]; [by left|]. simpl.
  destruct (isWhiteSpace a) eqn:E; [exact IH|].
  right. by exists a, s.
Qed.

Lemma trimStart_snoc (c : ascii) (x : string) :
  isWhiteSpace c = false -> trimStart (x +:+ String c "") = trimStart x +:+ String c "".
Proof.
  intros Hc. induction x as [|a x IH].
  - change ("" +:+ String c "") with (String c ""). simpl. by rewrite Hc.
  - rewrite app_cons. simpl. destruct (isWhiteSpace a); [exact IH|].
    by rewrite app_cons.
Qed.

Lemma trimEnd_cons (c : ascii) (rest : string) :
  isWhiteSpace c = false -> trimEnd (String c rest) = String c (trimEnd rest).
Proof.
  intros Hc. unfold trimEnd. by rewrite rev_cons, (trimStart_snoc _ _ Hc), rev_snoc.
Qed.

Lemma lastChar_snoc (c : ascii) (x : string) : lastChar (x +:+ String c "") = Some c.
Proof.
  induction x as [|a x IH]; [done|]. rewrite app_cons. simpl. rewrite IH.
  destruct x; done.
Qed.

Lemma trim_blank (s : string) : trim s = "" <-> allWhiteSpace s = true.
Proof.
  unfold trim. destruct (trimStart_cases s) as [[E W]|(c & rest & E & Hc & W)]; rewrite E, W.
  - done.
  - rewrite (trimEnd_cons _ _ Hc). done.
Qed.

Lemma trim_ends (s : string) (c : ascii) :
  firstChar (trim s) = Some c \/ lastChar (trim s) = Some c -> isWhiteSpace c = false.
Proof.
  unfold trim. intros [H|H].
  - destruct (trimStart_cases s) as [[E _]|(d & rest & E & Hd & _)]; rewrite E in H.
    + discriminate.
    + rewrite (trimEnd_cons _ _ Hd) in H. simpl in H. congruence.
  - unfold trimEnd in H.
    destruct (trimStart_cases (String.rev (trimStart s)))
      as [[E _]|(d & rest & E & Hd & _)]; rewrite E in H.
    + discriminate.
    + rewrite rev_cons, lastChar_snoc in H. congruence.
Qed.

(** X20. [addGroup] sends its request exactly when the group input holds a
    character that is not white space; and so does [addTodo], for a group
    that is found, with the todo input of the group (no entry counting as
    empty). *)
Theorem blank_means_all_white_space (createdAt : string) (now : Z) (s : State.t)
    (groupId : string) (group : Group.t) :
  (firstRequest (addGroup createdAt s) = None
   <-> allWhiteSpace (State.groupInput s) = true)
  /\ (findGroup groupId (State.groups s) = Some group ->
      (firstRequest (addTodo now s groupId) = None
       <-> allWhiteSpace (default "" (State.todoInputs s !! groupId)) = true)).
Proof.
  split.
  - rewrite <- trim_blank, <- falsy_true. unfold addGroup.
    by destruct (falsy _).
  - intros Hf. rewrite <- trim_blank, <- falsy_true. unfold addTodo. rewrite Hf.
    by destruct (falsy _).
Qed.

Lemma blank_means_all_white_space_witness :
  let s := typed [mockGroup] "  New Group " (String (ascii_of_nat 9) "  ") in
  firstRequest (addGroup "Jan 5, 2024" s) <> None
  /\ firstRequest (addTodo 1704412800000 s "1") = None.
Proof.
  intros s.
  destruct (blank_means_all_white_space "Jan 5, 2024" 1704412800000 s "1" mockGroup)
    as [HG HT].
  split.
  - intros H. apply HG in H. discriminate.
  - apply (HT eq_refl). reflexivity.
Defined.

(** X21. What is sent is trimmed: the title in the body of the request of
    [addGroup], and the text of the todo [addTodo] appends, are not empty and
    neither start nor end with white space. *)
Theorem sent_text_is_trimmed (createdAt : string) (now : Z) (s : State.t)
    (groupId : string) (req : Request) :
  (firstRequest (addGroup createdAt s) = Some req ->
   exists title,
     req = POST (createBody title createdAt)
     /\ title <> ""
     /\ forall c, firstChar title = Some c \/ lastChar title = Some c ->
                  isWhiteSpace c = false)
  /\ (firstRequest (addTodo now s groupId) = Some req ->
      exists todos text,
        req = PATCH groupId (todosBody (todos ++ [Todo.mk now text false]))
        /\ text <> ""
        /\ forall c, firstChar text = Some c \/ lastChar text = Some c ->
                     isWhiteSpace c = false).
Proof.
  split.
  - unfold addGroup. destruct (falsy _) eqn:E; [discriminate|]. simpl.
    intros H. injection H as <-. eexists. split; [reflexivity|].
    split; [by apply falsy_false | apply trim_ends].
  - unfold addTodo. destruct (falsy _) eqn:E; [discriminate|].
    destruct (findGroup groupId (State.groups s)) as [g|]; [|discriminate]. simpl.
    intros H. injection H as <-. eexists _, _. split; [reflexivity|].
    split; [by apply falsy_false | apply trim_ends].
Qed.

Lemma sent_text_is_trimmed_witness :
  exists title,
    POST (createBody "New Group" "Jan 5, 2024") = POST (createBody title "Jan 5, 2024")
    /\ title <> "".
Proof.
  destruct (proj1 (sent_text_is_trimmed "Jan 5, 2024" 0
                     (typed [mockGroup] "  New Group " "") "1"
                     (POST (createBody "New Group" "Jan 5, 2024"))) eq_refl)
    as (title & Hreq & Hne & _).
  exists title. split; [exact Hreq | exact Hne].
Defined.

(** ** The reply of a toggle *)



Example filterBar_of_Active :
  filterBar "Active"
  = [mkButton "filter-all" "filter-btn" "All";
     mkButton "filter-active" "filter-btn active" "Active";
     mkButton "filter-completed" "filter-btn" "Completed"].
Proof. reflexivity. Qed.

Example card_of_mockGroupWithTodos :
  renderCard (State.mk [mockGroupWithTodos] "" "Completed" ∅ false) mockGroupWithTodos
  = mkGroupView "1" "Test Group" None "" false
      [mkItem 102 true "todo-text completed" "Completed Todo"]
      (Some "1 item(s) left").
Proof. reflexivity. Qed.
